(** * binx: the reducer, the renderer and the byte-pattern search

    A shallow embedding of [main.go] of deorbit/binx, a terminal viewer that
    shows the bytes of a file as a grid of coloured cells.  The functions of
    the program keep their names ([findBytePattern], [rootReducer], [render],
    [emitStr], [emitStatBar], [HandleTcellEvent]); the pieces of the Go
    standard library they call ([hex.DecodeString], [bytes.Index],
    [strconv.ParseInt], [fmt.Sprintf] with [%d]) are modelled in modules named
    after their packages.

    Conventions.
    - Go's [int64] is a [Z] with the wrap-around of two's complement written
      out ([wrap64]); Go's [int] is taken to be 64 bits wide ([wrapInt]), as on
      amd64 and arm64.  A conversion [int64(x)] of an [int] never changes the
      value.
    - A Go [string] is a Rocq [string] (a sequence of 8-bit characters), a
      [byte] is a [Byte.byte], a [rune] is a [Z].
    - A [[]byte] keeps its capacity: a slice expression is checked against
      the capacity, not the length.
    - The terminal ([tcell.Screen]) is an interface implemented outside the
      program; it is modelled by its size and the list of the calls made on it.
    - The reducer runs with the state's mutex held; the embedding is
      sequential, so [Lock] and [Unlock] leave no trace in it. *)

From Stdlib Require Import ZArith List String Ascii Bool Lia.
From Stdlib Require Import Strings.Byte Numbers.DecimalString.
Import ListNotations.

Local Open Scope string_scope.
Local Open Scope Z_scope.

(** ** Machine integers *)

Definition wrap (bits : Z) (z : Z) : Z :=
  (z + 2 ^ (bits - 1)) mod 2 ^ bits - 2 ^ (bits - 1).

Definition wrap64 : Z -> Z := wrap 64.
Definition wrapInt : Z -> Z := wrap 64.
Definition wrapU64 (z : Z) : Z := z mod 2 ^ 64.

Definition maxInt64 : Z := 2 ^ 63 - 1.
Definition minInt64 : Z := - 2 ^ 63.
Definition maxUint64 : Z := 2 ^ 64 - 1.

Definition in_int64 (z : Z) : Prop := minInt64 <= z <= maxInt64.

(** ** Bytes, strings and runes *)

Definition rune := Z.

Definition Z_of_byte (b : byte) : Z := Z.of_N (Byte.to_N b).
Definition Z_of_ascii (c : ascii) : Z := Z.of_N (N_of_ascii c).
Definition ascii_of_Z (z : Z) : ascii := ascii_of_N (Z.to_N (z mod 256)).
Definition byte_of_Z (z : Z) : byte := byte_of_ascii (ascii_of_Z z).

Fixpoint string_of_Zs (l : list Z) : string :=
  match l with
  | [] => EmptyString
  | z :: l' => String (ascii_of_Z z) (string_of_Zs l')
  end.

Fixpoint Zs_of_string (s : string) : list Z :=
  match s with
  | EmptyString => []
  | String c s' => Z_of_ascii c :: Zs_of_string s'
  end.

Module utf8.

Definition RuneError : rune := 0xFFFD.
Definition MaxRune : rune := 0x10FFFF.

(** [utf8.EncodeRune]: the bytes of [string(r)].  A rune out of range or a
    surrogate half is encoded as U+FFFD. *)
Definition EncodeRune (r : rune) : list Z :=
  if (0 <=? r) && (r <=? 0x7F) then [r]
  else if (0 <=? r) && (r <=? 0x7FF) then
    [Z.lor 0xC0 (Z.shiftr r 6); Z.lor 0x80 (Z.land r 0x3F)]
  else if (r <? 0) || (MaxRune <? r) || ((0xD800 <=? r) && (r <=? 0xDFFF)) then
    [0xEF; 0xBF; 0xBD]
  else if r <=? 0xFFFF then
    [Z.lor 0xE0 (Z.shiftr r 12);
     Z.lor 0x80 (Z.land (Z.shiftr r 6) 0x3F);
     Z.lor 0x80 (Z.land r 0x3F)]
  else
    [Z.lor 0xF0 (Z.shiftr r 18);
     Z.lor 0x80 (Z.land (Z.shiftr r 12) 0x3F);
     Z.lor 0x80 (Z.land (Z.shiftr r 6) 0x3F);
     Z.lor 0x80 (Z.land r 0x3F)].

Definition between (lo hi b : Z) : bool := (lo <=? b) && (b <=? hi).

(** The range the second byte of a sequence must lie in, by first byte
    (the [acceptRanges] table). *)
Definition accept (b0 : Z) : Z * Z :=
  if b0 =? 0xE0 then (0xA0, 0xBF)
  else if b0 =? 0xED then (0x80, 0x9F)
  else if b0 =? 0xF0 then (0x90, 0xBF)
  else if b0 =? 0xF4 then (0x80, 0x8F)
  else (0x80, 0xBF).

(** [utf8.DecodeRuneInString]: the first rune of a byte sequence and its
    width in bytes; an ill-formed sequence gives U+FFFD and width 1. *)
Definition DecodeRune (p : list Z) : rune * nat :=
  match p with
  | [] => (RuneError, 0%nat)
  | b0 :: t =>
    if b0 <? 0x80 then (b0, 1%nat)
    else
      let '(lo, hi) := accept b0 in
      if between 0xC2 0xDF b0 then
        match t with
        | b1 :: _ =>
          if between lo hi b1
          then (Z.lor (Z.shiftl (Z.land b0 0x1F) 6) (Z.land b1 0x3F), 2%nat)
          else (RuneError, 1%nat)
        | _ => (RuneError, 1%nat)
        end
      else if between 0xE0 0xEF b0 then
        match t with
        | b1 :: b2 :: _ =>
          if between lo hi b1 && between 0x80 0xBF b2
          then (Z.lor (Z.shiftl (Z.land b0 0x0F) 12)
                  (Z.lor (Z.shiftl (Z.land b1 0x3F) 6) (Z.land b2 0x3F)), 3%nat)
          else (RuneError, 1%nat)
        | _ => (RuneError, 1%nat)
        end
      else if between 0xF0 0xF4 b0 then
        match t with
        | b1 :: b2 :: b3 :: _ =>
          if between lo hi b1 && between 0x80 0xBF b2 && between 0x80 0xBF b3
          then (Z.lor (Z.shiftl (Z.land b0 0x07) 18)
                  (Z.lor (Z.shiftl (Z.land b1 0x3F) 12)
                     (Z.lor (Z.shiftl (Z.land b2 0x3F) 6) (Z.land b3 0x3F))), 4%nat)
          else (RuneError, 1%nat)
        | _ => (RuneError, 1%nat)
        end
      else (RuneError, 1%nat)
  end.

(** The runes a [for _, c := range str] loop visits.  Every step consumes
    at least one byte, so the number of bytes is enough fuel. *)
Fixpoint runes_from (fuel : nat) (p : list Z) : list rune :=
  match fuel, p with
  | S fuel', _ :: _ =>
    let '(r, size) := DecodeRune p in r :: runes_from fuel' (skipn size p)
  | _, _ => []
  end.

Definition runes (s : string) : list rune :=
  runes_from (String.length s) (Zs_of_string s).

End utf8.

(** [string(r)] for a rune [r]. *)
Definition string_of_rune (r : rune) : string :=
  string_of_Zs (utf8.EncodeRune r).

Module fmt.

(** [fmt.Sprintf("%d", z)] *)
Definition decimal (z : Z) : string := NilZero.string_of_int (Z.to_int z).

Definition hexdigit (z : Z) : Z :=
  if z <? 10 then 48 + z else 55 + z.

(** [strconv.IsPrint] on the runes below U+0100. *)
Definition IsPrintLatin1 (r : rune) : bool :=
  utf8.between 0x20 0x7E r || (utf8.between 0xA1 0xFF r && negb (r =? 0xAD)).

(** [fmt.Sprintf("%#U", rune(b))] for a byte [b]: [U+007A 'z']. *)
Definition sharpU (b : Z) : string :=
  "U+00" ++ string_of_Zs [hexdigit (b / 16); hexdigit (b mod 16)]
    ++ (if IsPrintLatin1 b then " '" ++ string_of_rune b ++ "'" else "").

End fmt.

(** ** encoding/hex *)

Module hex.

Inductive error : Type :=
| ErrLength
| InvalidByteError (b : byte).

(** [err.Error()] *)
Definition Error (e : error) : string :=
  match e with
  | ErrLength => "encoding/hex: odd length hex string"
  | InvalidByteError b => "encoding/hex: invalid byte: " ++ fmt.sharpU (Z_of_byte b)
  end.

(** The value of a hexadecimal digit, [None] for any other character. *)
Definition fromHexChar (c : ascii) : option Z :=
  let z := Z_of_ascii c in
  if utf8.between 48 57 z then Some (z - 48)
  else if utf8.between 97 102 z then Some (z - 97 + 10)
  else if utf8.between 65 70 z then Some (z - 65 + 10)
  else None.

(** [hex.DecodeString]: the characters are taken two at a time; a
    character that is no hexadecimal digit is reported before a missing
    last digit is.  The bytes decoded before the error come back with it. *)
Fixpoint DecodeString (s : string) : list byte * option error :=
  match s with
  | EmptyString => ([], None)
  | String p EmptyString =>
    match fromHexChar p with
    | None => ([], Some (InvalidByteError (byte_of_ascii p)))
    | Some _ => ([], Some ErrLength)
    end
  | String p (String q rest) =>
    match fromHexChar p, fromHexChar q with
    | None, _ => ([], Some (InvalidByteError (byte_of_ascii p)))
    | Some _, None => ([], Some (InvalidByteError (byte_of_ascii q)))
    | Some a, Some b =>
      let '(out, err) := DecodeString rest in
      (byte_of_Z (Z.lor (Z.shiftl a 4) b) :: out, err)
    end
  end.

End hex.

(** ** bytes *)

Module bytes.

Fixpoint HasPrefix (s prefix : list byte) {struct prefix} : bool :=
  match prefix, s with
  | [], _ => true
  | _ :: _, [] => false
  | p :: prefix', c :: s' => Byte.eqb c p && HasPrefix s' prefix'
  end.

Fixpoint index_from (i : Z) (s sep : list byte) : Z :=
  if HasPrefix s sep then i
  else match s with
       | [] => -1
       | _ :: s' => index_from (i + 1) s' sep
       end.

(** [bytes.Index(s, sep)]: the index of the first instance of [sep] in
    [s], or -1 when there is none. *)
Definition Index (s sep : list byte) : Z := index_from 0 s sep.

End bytes.

(** ** strconv *)

Module strconv.

Inductive error : Type :=
| ErrSyntax
| ErrRange.

(** The value of a digit or letter, as [ParseUint]'s loop reads it. *)
Definition digit (c : ascii) : option Z :=
  let z := Z_of_ascii c in
  if utf8.between 48 57 z then Some (z - 48)
  else if utf8.between 97 122 z then Some (z - 97 + 10)
  else if utf8.between 65 90 z then Some (z - 65 + 10)
  else None.

(** The loop of [ParseUint] over the digits, with the accumulator [n]. *)
Fixpoint digits (base : Z) (n : Z) (s : string) : Z * option error :=
  match s with
  | EmptyString => (n, None)
  | String c s' =>
    match digit c with
    | None => (0, Some ErrSyntax)
    | Some v =>
      if base <=? v then (0, Some ErrSyntax)
      else if maxUint64 / base + 1 <=? n then (maxUint64, Some ErrRange)
      else
        let n := wrapU64 (n * base) in
        let n1 := wrapU64 (n + v) in
        if (n1 <? n) || (maxUint64 <? n1) then (maxUint64, Some ErrRange)
        else digits base n1 s'
    end
  end.

Definition isChar (c : ascii) (z : Z) : bool := Z_of_ascii c =? z.

(** [strconv.ParseUint(s, 0, 64)] of the Go standard library, after its
    documentation.  Base 0 takes the base from the prefix of the literal:
    [0x] or [0X] for hexadecimal, a leading [0] for octal, decimal otherwise
    (the "hex, dec, or octal" of the comment in [rootReducer]). *)
Definition ParseUint (s : string) : Z * option error :=
  match s with
  | EmptyString => (0, Some ErrSyntax)
  | String c0 t =>
    if isChar c0 48 then
      match t with
      | String c1 t' =>
        if isChar c1 120 || isChar c1 88 then
          match t' with
          | EmptyString => (0, Some ErrSyntax)
          | _ => digits 16 0 t'
          end
        else digits 8 0 t
      | EmptyString => digits 8 0 t
      end
    else digits 10 0 s
  end.

(** [strconv.ParseInt(s, 0, 64)] of the Go standard library: an optional
    sign, then [ParseUint]; a syntax error comes back with 0, a value
    outside [int64] is a range error and comes back as the nearest bound. *)
Definition ParseInt (s : string) : Z * option error :=
  match s with
  | EmptyString => (0, Some ErrSyntax)
  | String c0 t =>
    let neg := isChar c0 45 in
    let s' := if isChar c0 43 || isChar c0 45 then t else s in
    let '(un, err) := ParseUint s' in
    match err with
    | Some ErrSyntax => (0, Some ErrSyntax)
    | _ =>
      let cutoff := 2 ^ 63 in
      if negb neg && (cutoff <=? un) then (cutoff - 1, Some ErrRange)
      else if neg && (cutoff <? un) then (- cutoff, Some ErrRange)
      else
        let n := wrap64 un in
        (if neg then wrap64 (- n) else n, None)
    end
  end.

End strconv.

(** ** The terminal: [tcell.Screen], [tcell.Style], [tcell.Event] *)

Definition Color := Z.

Record Style : Type := { fg : Color; bg : Color }.

(** [style.Foreground(c)] *)
Definition Foreground (st : Style) (c : Color) : Style :=
  {| fg := c; bg := bg st |}.

Definition ColorDefault : Color := -1.
Definition StyleDefault : Style := {| fg := ColorDefault; bg := ColorDefault |}.

Definition RuneBoard : rune := 0x2592.

Inductive ScreenCall : Type :=
| SetContent (x y : Z) (mainc : rune) (combc : list rune) (style : Style)
| SetStyle (style : Style)
| Show
| Fini.

(** A screen is what [Size()] answers and the calls it has received, the
    latest last. *)
Record Screen : Type := { Size : Z * Z; calls : list ScreenCall }.

Definition call (c : ScreenCall) (s : Screen) : Screen :=
  {| Size := Size s; calls := calls s ++ [c] |}.

Inductive Key : Type :=
| KeyEscape
| KeyDown
| KeyUp
| KeyEnter
| KeyRune
| KeyCode (code : Z).

Inductive Event : Type :=
| EventResize
| EventKey (key : Key) (r : rune)
| EventOther.

(** ** Byte slices *)

(** A [[]byte]: the [len] elements in view, and the rest of the backing
    array up to the capacity. *)
Record byteSlice : Type := { elems : list byte; spare : list byte }.

Definition len (s : byteSlice) : Z := Z.of_nat (List.length (elems s)).
Definition cap (s : byteSlice) : Z :=
  Z.of_nat (List.length (elems s ++ spare s)).

(** [s[lo:hi]]: the elements of the backing array from [lo] up to [hi];
    [None] is the run-time panic "slice bounds out of range", raised
    unless [0 <= lo <= hi <= cap(s)]. *)
Definition slice (s : byteSlice) (lo hi : Z) : option (list byte) :=
  if (0 <=? lo) && (lo <=? hi) && (hi <=? cap s)
  then Some (firstn (Z.to_nat (hi - lo)) (skipn (Z.to_nat lo) (elems s ++ spare s)))
  else None.

(** ** The data model of main.go *)

(** Input modes *)
Inductive Mode : Type :=
| NormalMode
| SeekInputMode
| PatternInputMode.

(** The [iota] value of a mode, as [%d] prints it. *)
Definition mode_code (m : Mode) : Z :=
  match m with
  | NormalMode => 0
  | SeekInputMode => 1
  | PatternInputMode => 2
  end.

Definition Mode_eqb (a b : Mode) : bool := mode_code a =? mode_code b.

(** Actions *)
Definition BinxResize : string := "BINX_RESIZE".
Definition BinxEscape : string := "BINX_ESCAPE".
Definition BinxKeyEnter : string := "BINX_KEYENTER".
Definition BinxKeyUp : string := "BINX_KEYUP".
Definition BinxKeyDown : string := "BINX_KEYDOWN".
Definition BinxSetScreenStyle : string := "BINX_SETSTYLE".
Definition BinxToggleSeekMode : string := "BINX_TOGGLE_SEEKMODE".
Definition BinxKeyS : string := "BINX_KEY_S".
Definition BinxKeyF : string := "BINX_KEY_F".
Definition BinxKeyOther : string := "BINX_KEY_OTHER".

Record AppState : Type := {
  filename : string;
  dat : byteSlice;
  screen : Screen;
  byteVisWidth : Z;
  byteVisHeight : Z;
  statStyle : Style;
  byteStyle : Style;
  alertStyle : Style;
  startByte : Z;
  mode : Mode;
  userInput : string;
  highlightPos : Z;
  highlightLength : Z;
  lastAction : string;
  status : string
}.

(** The dynamic value an action carries ([interface{}]). *)
Inductive Value : Type :=
| EventValue (ev : Event)
| RuneValue (r : rune)
| StyleValue (st : Style).

Record Action : Type := { name : string; value : Value }.

(** Assignments to the fields the program writes. *)
Definition set_screen (v : Screen) (s : AppState) : AppState :=
  {| filename := filename s; dat := dat s; screen := v;
     byteVisWidth := byteVisWidth s; byteVisHeight := byteVisHeight s;
     statStyle := statStyle s; byteStyle := byteStyle s;
     alertStyle := alertStyle s; startByte := startByte s; mode := mode s;
     userInput := userInput s; highlightPos := highlightPos s;
     highlightLength := highlightLength s; lastAction := lastAction s;
     status := status s |}.

Definition set_byteVisHeight (v : Z) (s : AppState) : AppState :=
  {| filename := filename s; dat := dat s; screen := screen s;
     byteVisWidth := byteVisWidth s; byteVisHeight := v;
     statStyle := statStyle s; byteStyle := byteStyle s;
     alertStyle := alertStyle s; startByte := startByte s; mode := mode s;
     userInput := userInput s; highlightPos := highlightPos s;
     highlightLength := highlightLength s; lastAction := lastAction s;
     status := status s |}.

Definition set_byteStyle (v : Style) (s : AppState) : AppState :=
  {| filename := filename s; dat := dat s; screen := screen s;
     byteVisWidth := byteVisWidth s; byteVisHeight := byteVisHeight s;
     statStyle := statStyle s; byteStyle := v;
     alertStyle := alertStyle s; startByte := startByte s; mode := mode s;
     userInput := userInput s; highlightPos := highlightPos s;
     highlightLength := highlightLength s; lastAction := lastAction s;
     status := status s |}.

Definition set_startByte (v : Z) (s : AppState) : AppState :=
  {| filename := filename s; dat := dat s; screen := screen s;
     byteVisWidth := byteVisWidth s; byteVisHeight := byteVisHeight s;
     statStyle := statStyle s; byteStyle := byteStyle s;
     alertStyle := alertStyle s; startByte := v; mode := mode s;
     userInput := userInput s; highlightPos := highlightPos s;
     highlightLength := highlightLength s; lastAction := lastAction s;
     status := status s |}.

Definition set_mode (v : Mode) (s : AppState) : AppState :=
  {| filename := filename s; dat := dat s; screen := screen s;
     byteVisWidth := byteVisWidth s; byteVisHeight := byteVisHeight s;
     statStyle := statStyle s; byteStyle := byteStyle s;
     alertStyle := alertStyle s; startByte := startByte s; mode := v;
     userInput := userInput s; highlightPos := highlightPos s;
     highlightLength := highlightLength s; lastAction := lastAction s;
     status := status s |}.

Definition set_userInput (v : string) (s : AppState) : AppState :=
  {| filename := filename s; dat := dat s; screen := screen s;
     byteVisWidth := byteVisWidth s; byteVisHeight := byteVisHeight s;
     statStyle := statStyle s; byteStyle := byteStyle s;
     alertStyle := alertStyle s; startByte := startByte s; mode := mode s;
     userInput := v; highlightPos := highlightPos s;
     highlightLength := highlightLength s; lastAction := lastAction s;
     status := status s |}.

Definition set_highlightPos (v : Z) (s : AppState) : AppState :=
  {| filename := filename s; dat := dat s; screen := screen s;
     byteVisWidth := byteVisWidth s; byteVisHeight := byteVisHeight s;
     statStyle := statStyle s; byteStyle := byteStyle s;
     alertStyle := alertStyle s; startByte := startByte s; mode := mode s;
     userInput := userInput s; highlightPos := v;
     highlightLength := highlightLength s; lastAction := lastAction s;
     status := status s |}.

Definition set_lastAction (v : string) (s : AppState) : AppState :=
  {| filename := filename s; dat := dat s; screen := screen s;
     byteVisWidth := byteVisWidth s; byteVisHeight := byteVisHeight s;
     statStyle := statStyle s; byteStyle := byteStyle s;
     alertStyle := alertStyle s; startByte := startByte s; mode := mode s;
     userInput := userInput s; highlightPos := highlightPos s;
     highlightLength := highlightLength s; lastAction := v;
     status := status s |}.

Definition set_status (v : string) (s : AppState) : AppState :=
  {| filename := filename s; dat := dat s; screen := screen s;
     byteVisWidth := byteVisWidth s; byteVisHeight := byteVisHeight s;
     statStyle := statStyle s; byteStyle := byteStyle s;
     alertStyle := alertStyle s; startByte := startByte s; mode := mode s;
     userInput := userInput s; highlightPos := highlightPos s;
     highlightLength := highlightLength s; lastAction := lastAction s;
     status := v |}.

(** How a call of the reducer or of the renderer ends: it returns, the
    process exits ([os.Exit]), or the run time panics. *)
Inductive Outcome : Type :=
| Next (s : AppState)
| Exit (code : Z) (s : AppState)
| Panic.

(** ** HandleTcellEvent *)

(** The action sent on the dispatcher for a terminal event; no action for
    an event that is neither a resize nor a key. *)
Definition HandleTcellEvent (ev : Event) : option Action :=
  match ev with
  | EventResize => Some {| name := BinxResize; value := EventValue ev |}
  | EventKey key r =>
    match key with
    | KeyEscape => Some {| name := BinxEscape; value := EventValue ev |}
    | KeyDown => Some {| name := BinxKeyDown; value := EventValue ev |}
    | KeyUp => Some {| name := BinxKeyUp; value := EventValue ev |}
    | KeyEnter => Some {| name := BinxKeyEnter; value := EventValue ev |}
    | _ =>
      if r =? 115 then Some {| name := BinxKeyS; value := RuneValue r |}
      else if r =? 102 then Some {| name := BinxKeyF; value := RuneValue r |}
      else Some {| name := BinxKeyOther; value := RuneValue r |}
    end
  | EventOther => None
  end.

(** ** findBytePattern *)

(** [findBytePattern(p, buf)]: the offset and the error, as the Go function
    returns the pair. *)
Definition findBytePattern (p : string) (buf : list byte) : Z * option hex.error :=
  let '(decodedPattern, err) := hex.DecodeString p in
  match err with
  | Some e => (0, Some e)
  | None =>
    let loc := bytes.Index buf decodedPattern in
    (loc, None)
  end.

(** ** The program *)

Section Binx.

(** [runewidth.RuneWidth] of mattn/go-runewidth: the number of cells a
    rune occupies.  The library is not part of the program; everything
    below holds whatever it answers. *)
Variable RuneWidth : rune -> Z.

Definition tab : string := String (ascii_of_nat 9) EmptyString.

(** The body of [emitStr]'s loop over the runes of the string. *)
Fixpoint emitRunes (s : Screen) (x y : Z) (style : Style) (str : list rune) : Screen :=
  match str with
  | [] => s
  | c :: str' =>
    let width := RuneWidth c in
    let '(c, combiningChars, width) :=
      if width =? 0 then (32, [c], 1) else (c, [], width) in
    let s := call (SetContent x y c combiningChars style) s in
    emitRunes s (wrapInt (x + width)) y style str'
  end.

(** emitStr prepares a string for render. *)
Definition emitStr (s : Screen) (x y : Z) (style : Style) (str : string) : Screen :=
  emitRunes s x y style (utf8.runes str).

(** emitStatBar renders the status bar. *)
Definition emitStatBar (state : AppState) : AppState :=
  let '(w, h) := Size (screen state) in
  let numVisibleBytes := wrapInt (w * h) in
  set_screen
    (emitStr (screen state) 0 (wrapInt (h - 1)) (statStyle state)
       ("--" ++ fmt.decimal (startByte state)
        ++ "--" ++ fmt.decimal (wrap64 (startByte state + numVisibleBytes))
        ++ "--" ++ fmt.decimal (mode_code (mode state))
        ++ "--Last Action: " ++ lastAction state
        ++ "--Status: " ++ status state
        ++ tab ++ userInput state))
    state.

(** rootReducer, applied to the state it closes over and to one action. *)
Definition rootReducer (state : AppState) (action : Action) : Outcome :=
  let state := set_lastAction (name action) state in
  if (name action =? BinxKeyUp)%string then
    let w := byteVisWidth state in
    let state := set_startByte (wrap64 (startByte state - w)) state in
    if startByte state <? 0
    then Next (set_startByte 0 state)
    else Next state
  else if (name action =? BinxKeyDown)%string then
    Next (set_startByte (wrap64 (startByte state + byteVisWidth state)) state)
  else if (name action =? BinxResize)%string then
    let '(_, h) := Size (screen state) in
    Next (set_byteVisHeight (wrapInt (h - 1)) state)
  else if (name action =? BinxEscape)%string then
    if Mode_eqb (mode state) NormalMode then
      Exit 0 (set_screen (call Fini (screen state)) state)
    else
      let state :=
        if Mode_eqb (mode state) SeekInputMode
        then set_userInput "" (set_mode NormalMode state)
        else state in
      let state :=
        if Mode_eqb (mode state) PatternInputMode
        then set_userInput "" (set_mode NormalMode state)
        else state in
      Next state
  else if (name action =? BinxKeyEnter)%string then
    if Mode_eqb (mode state) SeekInputMode then
      let '(startByte', err) := strconv.ParseInt (userInput state) in
      let state := set_startByte startByte' state in
      let state := set_userInput "" state in
      let state := set_mode NormalMode state in
      match err with
      | Some _ => Next state
      | None => Next state
      end
    else if Mode_eqb (mode state) PatternInputMode then
      let '(highlightPos', err) :=
        findBytePattern (userInput state) (elems (dat state)) in
      let state :=
        match err with
        | Some e => set_status (hex.Error e) state
        | None => state
        end in
      let state := set_highlightPos highlightPos' state in
      let state :=
        set_screen
          (emitStr (screen state) 0 10 StyleDefault
             (fmt.decimal (highlightPos state)))
          state in
      Next (set_userInput "" state)
    else Next state
  else if (name action =? BinxSetScreenStyle)%string then
    match value action with
    | StyleValue st => Next (set_screen (call (SetStyle st) (screen state)) state)
    | _ => Panic
    end
  else if (name action =? BinxKeyS)%string then
    if Mode_eqb (mode state) NormalMode then
      Next (set_userInput "" (set_mode SeekInputMode state))
    else if Mode_eqb (mode state) SeekInputMode then
      match value action with
      | RuneValue r => Next (set_userInput (userInput state ++ string_of_rune r) state)
      | _ => Panic
      end
    else Next state
  else if (name action =? BinxKeyF)%string then
    if Mode_eqb (mode state) NormalMode then
      Next (set_userInput "" (set_mode PatternInputMode state))
    else
      match value action with
      | RuneValue r => Next (set_userInput (userInput state ++ string_of_rune r) state)
      | _ => Panic
      end
  else if (name action =? BinxKeyOther)%string then
    if Mode_eqb (mode state) SeekInputMode then
      match value action with
      | RuneValue r => Next (set_userInput (userInput state ++ string_of_rune r) state)
      | _ => Panic
      end
    else Next state
  else Next state.

(** The reducer over a sequence of actions, in the order the dispatcher
    delivers them ([Store.Reduce]); it stops at an exit or a panic. *)
Fixpoint Reduce (state : AppState) (actions : list Action) : Outcome :=
  match actions with
  | [] => Next state
  | a :: actions' =>
    match rootReducer state a with
    | Next state' => Reduce state' actions'
    | o => o
    end
  end.

(** The loop of [render] over the bytes in view, [i] being the index of
    the first of them.  [None] is the panic of a division by zero. *)
Fixpoint drawBytes (w i : Z) (bs : list byte) (state : AppState) : option AppState :=
  match bs with
  | [] => Some state
  | b :: bs' =>
    if w =? 0 then None
    else
      let state := set_byteStyle (Foreground (byteStyle state) (Z_of_byte b)) state in
      let state :=
        set_screen
          (call (SetContent (Z.rem i w) (Z.quot i w) RuneBoard [] (byteStyle state))
             (screen state))
          state in
      drawBytes w (i + 1) bs' state
  end.

Definition render (state : AppState) : Outcome :=
  let state := set_screen (call Show (screen state)) state in
  let w := byteVisWidth state in
  let h := byteVisHeight state in
  let numVisibleBytes := wrapInt (w * h) in
  let numVisibleBytes := if numVisibleBytes <? 0 then 0 else numVisibleBytes in
  match slice (dat state) (startByte state)
          (wrap64 (startByte state + numVisibleBytes)) with
  | None => Panic
  | Some bs =>
    match drawBytes w 0 bs state with
    | None => Panic
    | Some state =>
      let state := emitStatBar state in
      Next (set_screen (call Show (screen state)) state)
    end
  end.

End Binx.

(** ** Vocabulary of the properties *)

(** [pat] occurs in [buf] at offset [i]. *)
Definition occurs_at (pat buf : list byte) (i : nat) : Prop :=
  (i <= List.length buf)%nat /\ exists post, skipn i buf = (pat ++ post)%list.

(** [i] is the offset of the first occurrence of [pat] in [buf]. *)
Definition first_occurrence (pat buf : list byte) (i : nat) : Prop :=
  occurs_at pat buf i /\ forall j, (j < i)%nat -> ~ occurs_at pat buf j.

(** A pattern is not a sequence of pairs of hexadecimal digits: its length
    is odd, or one of its characters is no hexadecimal digit. *)
Definition invalid_hex (p : string) : Prop :=
  Nat.Odd (String.length p) \/
  exists c, In c (list_ascii_of_string p) /\ hex.fromHexChar c = None.

(** The number a sequence of digits denotes in a base, read from the left
    with [n] for the digits already read; [None] when a character is not a
    digit of the base. *)
Fixpoint literal_value (base n : Z) (s : string) : option Z :=
  match s with
  | EmptyString => Some n
  | String c s' =>
    match strconv.digit c with
    | Some v => if v <? base then literal_value base (n * base + v) s' else None
    | None => None
    end
  end.

(** The unsigned integer literals and their values: decimal, hexadecimal
    after [0x] or [0X], octal after [0]. *)
Inductive literal : string -> Z -> Prop :=
| literal_decimal (c : ascii) (s : string) (v : Z) :
    strconv.isChar c 48 = false ->
    literal_value 10 0 (String c s) = Some v ->
    literal (String c s) v
| literal_hex (x : ascii) (s : string) (v : Z) :
    strconv.isChar x 120 || strconv.isChar x 88 = true ->
    s <> EmptyString ->
    literal_value 16 0 s = Some v ->
    literal (String "0" (String x s)) v
| literal_octal (s : string) (v : Z) :
    literal_value 8 0 s = Some v ->
    literal (String "0" s) v.

(** The bytes 0x00 .. 0x09 of [Test_findBytePattern]. *)
Definition test_buf : list byte :=
  [x00; x01; x02; x03; x04; x05; x06; x07; x08; x09].

(** A ten-byte file as [ioutil.ReadFile] hands it over: ten bytes in view,
    in a backing array with room to spare (512 bytes here). *)
Definition small_file : byteSlice :=
  {| elems := test_buf; spare := repeat x00 502 |}.

Definition terminal : Screen := {| Size := (80, 24); calls := [] |}.

(** A session on [small_file] in an 80x24 terminal, scrolled two rows down,
    with an earlier match at offset 7. *)
Definition session (m : Mode) (input : string) : AppState :=
  {| filename := "small"; dat := small_file; screen := terminal;
     byteVisWidth := 80; byteVisHeight := 23;
     statStyle := StyleDefault; byteStyle := StyleDefault;
     alertStyle := StyleDefault; startByte := 160; mode := m;
     userInput := input; highlightPos := 7; highlightLength := 0;
     lastAction := ""; status := "" |}.

(** The session as [main] starts it: at offset 0, in normal mode. *)
Definition fresh_session : AppState := set_startByte 0 (session NormalMode "").

(** A terminal font in which every rune is one cell wide. *)
Definition narrow (r : rune) : Z := 1.

(** The actions the input translator produces for a sequence of events. *)
Definition actions_of (evs : list Event) : list Action :=
  flat_map (fun ev => match HandleTcellEvent ev with
                      | Some a => [a]
                      | None => []
                      end) evs.

Definition press (r : rune) : Event := EventKey KeyRune r.
Definition enter : Event := EventKey KeyEnter 13.
Definition escape : Event := EventKey KeyEscape 27.
Definition arrow_up : Event := EventKey KeyUp 0.
Definition arrow_down : Event := EventKey KeyDown 0.

(** The keys [s], [-], [5], Enter. *)
Definition seek_minus_five : list Event := [press 115; press 45; press 53; enter].

(** The action of the Enter key. *)
Definition commit : Action := {| name := BinxKeyEnter; value := EventValue enter |}.

(** The number of cells of the byte grid among the calls a screen received. *)
Definition cells_drawn (s : Screen) : nat :=
  List.length (filter (fun c => match c with
                                | SetContent _ _ r _ _ => r =? RuneBoard
                                | _ => false
                                end) (calls s)).

(** The key events that type a string, one per character. *)
Definition type_keys (s : string) : list Event := map press (Zs_of_string s).

(** The input is empty whenever the mode is normal. *)
Definition input_cleared (st : AppState) : Prop :=
  mode st = NormalMode -> userInput st = "".

(** The value of an action is a rune / a style. *)
Definition is_rune (v : Value) : bool :=
  match v with RuneValue _ => true | _ => false end.

Definition is_style (v : Value) : bool :=
  match v with StyleValue _ => true | _ => false end.




(** A call that sets a cell of row [y] in the style [style]. *)
Definition on_row (y : Z) (style : Style) (c : ScreenCall) : Prop :=
  match c with
  | SetContent _ y' _ _ style' => y' = y /\ style' = style
  | _ => False
  end.



(** ** bytes.Index finds the first occurrence *)

Lemma HasPrefix_true (s prefix : list byte) :
  bytes.HasPrefix s prefix = true <-> exists post, s = (prefix ++ post)%list.
Proof.
  revert s; induction prefix as [|p prefix IH]; intros s; simpl.
  - split; [intros _; now exists s | reflexivity].
  - destruct s as [|c s]; simpl.
    + split; [discriminate | intros [post H]; discriminate].
    + rewrite andb_true_iff, IH. split.
      * intros [Hc [post ->]]. apply Byte.byte_dec_bl in Hc. subst. now exists post.
      * intros [post H]. injection H as -> ->. split.
        -- now apply Byte.byte_dec_lb.
        -- now exists post.
Qed.

Lemma occurs_at_0 (pat buf : list byte) :
  occurs_at pat buf 0 <-> bytes.HasPrefix buf pat = true.
Proof.
  unfold occurs_at. rewrite HasPrefix_true. simpl. split.
  - now intros [_ H].
  - intros H. split; [lia | exact H].
Qed.

Lemma occurs_at_S (pat : list byte) (c : byte) (buf : list byte) (i : nat) :
  occurs_at pat (c :: buf) (S i) <-> occurs_at pat buf i.
Proof. unfold occurs_at. simpl. rewrite <- Nat.succ_le_mono. reflexivity. Qed.

Lemma occurs_at_nil (pat : list byte) (i : nat) :
  occurs_at pat [] i -> pat = [] /\ i = 0%nat.
Proof.
  intros [Hi [post H]]. simpl in Hi. assert (i = 0%nat) by lia. subst.
  simpl in H. symmetry in H. apply app_eq_nil in H. tauto.
Qed.

Lemma index_from_spec (sep s : list byte) (i : Z) :
  (exists k, bytes.index_from i s sep = i + Z.of_nat k /\ first_occurrence sep s k)
  \/ (bytes.index_from i s sep = -1 /\ forall j, ~ occurs_at sep s j).
Proof.
  revert i; induction s as [|c s IH]; intros i; simpl.
  - destruct (bytes.HasPrefix [] sep) eqn:E.
    + left. exists 0%nat. split; [lia|]. split; [now apply occurs_at_0|].
      intros j Hj; lia.
    + right. split; [reflexivity|]. intros j Hj.
      destruct (occurs_at_nil _ _ Hj) as [-> _]. discriminate.
  - destruct (bytes.HasPrefix (c :: s) sep) eqn:E.
    + left. exists 0%nat. split; [lia|]. split; [now apply occurs_at_0|].
      intros j Hj; lia.
    + assert (H0 : ~ occurs_at sep (c :: s) 0)
        by (rewrite occurs_at_0; congruence).
      destruct (IH (i + 1)) as [[k [Hk [Hocc Hfirst]]] | [Hm Hnone]].
      * left. exists (S k). split; [lia|]. split.
        -- now apply occurs_at_S.
        -- intros [|j] Hj; [exact H0|]. rewrite occurs_at_S. apply Hfirst. lia.
      * right. split; [exact Hm|]. intros [|j]; [exact H0|].
        rewrite occurs_at_S. apply Hnone.
Qed.

Lemma Index_found (s sep : list byte) :
  (exists i, occurs_at sep s i) ->
  exists k, bytes.Index s sep = Z.of_nat k /\ first_occurrence sep s k.
Proof.
  intros [i Hi]. unfold bytes.Index.
  destruct (index_from_spec sep s 0) as [[k [Hk Hf]] | [_ Hnone]].
  - exists k. split; [lia | exact Hf].
  - exfalso. exact (Hnone i Hi).
Qed.

Lemma Index_absent (s sep : list byte) :
  (forall i, ~ occurs_at sep s i) -> bytes.Index s sep = -1.
Proof.
  intros Hnone. unfold bytes.Index.
  destruct (index_from_spec sep s 0) as [[k [_ [Hocc _]]] | [Hm _]].
  - exfalso. exact (Hnone k Hocc).
  - exact Hm.
Qed.

(** ** hex.DecodeString fails exactly on the invalid patterns *)

Lemma DecodeString_invalid (p : string) :
  invalid_hex p <-> exists out e, hex.DecodeString p = (out, Some e).
Proof.
  unfold invalid_hex.
  assert (H : forall n p, (String.length p <= n)%nat ->
    ((Nat.Odd (String.length p) \/
      exists c, In c (list_ascii_of_string p) /\ hex.fromHexChar c = None)
     <-> exists out e, hex.DecodeString p = (out, Some e))).
  { clear p. induction n as [|n IH]; intros p Hn.
    - destruct p; simpl in Hn; [|lia]. simpl. split.
      + intros [[k Hk] | [c [[] _]]]. lia.
      + intros [out [e H]]. discriminate.
    - destruct p as [|a [|b p]].
      + simpl. split.
        * intros [[k Hk] | [c [[] _]]]. lia.
        * intros [out [e H]]. discriminate.
      + simpl. split.
        * intros _. destruct (hex.fromHexChar a); eauto.
        * intros _. left. exists 0%nat. reflexivity.
      + assert (Hp : (String.length p <= n)%nat) by (simpl in Hn; lia).
        specialize (IH p Hp).
        change (hex.DecodeString (String a (String b p))) with
          (match hex.fromHexChar a, hex.fromHexChar b with
           | None, _ => ([], Some (hex.InvalidByteError (byte_of_ascii a)))
           | Some _, None => ([], Some (hex.InvalidByteError (byte_of_ascii b)))
           | Some x, Some y =>
             let '(out, err) := hex.DecodeString p in
             (byte_of_Z (Z.lor (Z.shiftl x 4) y) :: out, err)
           end).
        destruct (hex.fromHexChar a) as [x|] eqn:Ea.
        2:{ split; [eauto|]. intros _. right. exists a. simpl. auto. }
        destruct (hex.fromHexChar b) as [y|] eqn:Eb.
        2:{ split; [eauto|]. intros _. right. exists b. simpl. auto. }
        destruct (hex.DecodeString p) as [out err] eqn:Ed.
        split.
        * intros Hinv.
          assert (Hinv' : Nat.Odd (String.length p) \/
            exists c, In c (list_ascii_of_string p) /\ hex.fromHexChar c = None).
          { destruct Hinv as [[k Hk] | [c [Hin Hc]]].
            - left. exists (k - 1)%nat. simpl in Hk. lia.
            - simpl in Hin. destruct Hin as [<- | [<- | Hin]]; try congruence.
              right. now exists c. }
          apply IH in Hinv'. destruct Hinv' as [out' [e He]].
          injection He as <- ->. eauto.
        * intros [out' [e He]]. injection He as <- ->.
          destruct (proj2 IH) as [[k Hk] | [c [Hin Hc]]]; [eauto | |].
          -- left. exists (S k). simpl. lia.
          -- right. exists c. simpl. auto. }
  apply (H (String.length p)). lia.
Qed.


(** ** findBytePattern *)

Lemma first_occurrence_unique (pat buf : list byte) (i j : nat) :
  first_occurrence pat buf i -> first_occurrence pat buf j -> i = j.
Proof.
  intros [Hi Hfi] [Hj Hfj].
  destruct (Nat.lt_trichotomy i j) as [H | [H | H]]; [|exact H|].
  - exfalso. exact (Hfj i H Hi).
  - exfalso. exact (Hfi j H Hj).
Qed.

Lemma findBytePattern_decoded (p : string) (buf pat : list byte) :
  hex.DecodeString p = (pat, None) ->
  findBytePattern p buf = (bytes.Index buf pat, None).
Proof. intros H. unfold findBytePattern. rewrite H. reflexivity. Qed.

Lemma findBytePattern_error (p : string) (buf out : list byte) (e : hex.error) :
  hex.DecodeString p = (out, Some e) ->
  findBytePattern p buf = (0, Some e).
Proof. intros H. unfold findBytePattern. rewrite H. reflexivity. Qed.

(** C5, as the code has it: an odd-length or non-hex pattern is reported
    with an error (and offset 0), and only such a pattern is; a pattern that
    decodes and occurs nowhere in the buffer gives -1 without an error, so
    the caller tells the two failures apart by the error; the empty pattern
    decodes to no bytes and is found at offset 0. *)
Theorem findBytePattern_failures (p : string) (buf : list byte) :
  (invalid_hex p <-> exists e, findBytePattern p buf = (0, Some e)) /\
  (invalid_hex p <-> snd (findBytePattern p buf) <> None) /\
  (forall pat, hex.DecodeString p = (pat, None) ->
               (forall i, ~ occurs_at pat buf i) ->
               findBytePattern p buf = (-1, None)) /\
  findBytePattern "" buf = (0, None).
Proof.
  assert (Herr : invalid_hex p <-> exists e, findBytePattern p buf = (0, Some e)).
  { rewrite DecodeString_invalid. split.
    - intros [out [e H]]. exists e. now apply findBytePattern_error with out.
    - intros [e H]. unfold findBytePattern in H.
      destruct (hex.DecodeString p) as [out [e'|]]; [eauto | discriminate]. }
  split; [exact Herr|]. split; [|split].
  - rewrite Herr. split.
    + intros [e ->]. discriminate.
    + intros H. unfold findBytePattern in *.
      destruct (hex.DecodeString p) as [out [e'|]]; [eauto | now elim H].
  - intros pat Hd Hnone. rewrite (findBytePattern_decoded _ _ _ Hd).
    now rewrite Index_absent.
  - destruct buf; reflexivity.
Qed.

(** The claim C5 fails on the empty pattern: it is not reported as invalid
    but found at offset 0. *)
Lemma findBytePattern_empty_pattern_found :
  findBytePattern "" test_buf = (0, None).
Proof. reflexivity. Qed.

Lemma findBytePattern_failures_witness :
  invalid_hex "zz" /\ findBytePattern "zz" test_buf
                      = (0, Some (hex.InvalidByteError "z"%byte)) /\
  findBytePattern "0a" test_buf = (-1, None).
Proof.
  pose proof (findBytePattern_failures "zz" test_buf) as [H1 _].
  pose proof (findBytePattern_failures "0a" test_buf) as [_ [_ [H3 _]]].
  split; [|split].
  - apply H1. eexists. reflexivity.
  - reflexivity.
  - apply (H3 [x0a]); [reflexivity|].
    intros i [Hi [post H]]. simpl in Hi.
    do 11 (destruct i as [|i]; [discriminate H|]). lia.
Defined.

(** C6: for a pattern that decodes and whose bytes occur in the buffer,
    [findBytePattern] returns the offset of the first occurrence, without an
    error. *)
Theorem findBytePattern_first_occurrence (p : string) (buf pat : list byte) :
  hex.DecodeString p = (pat, None) ->
  (exists i, occurs_at pat buf i) ->
  exists k, findBytePattern p buf = (Z.of_nat k, None) /\
            first_occurrence pat buf k.
Proof.
  intros Hd Hocc. rewrite (findBytePattern_decoded _ _ _ Hd).
  destruct (Index_found buf pat Hocc) as [k [Hk Hf]].
  exists k. rewrite Hk. now split.
Qed.

(** The byte 0x09 occurs in the bytes 0x00 .. 0x09 at offset 9, and not
    before. *)
Lemma test_buf_first_09 : first_occurrence [x09] test_buf 9.
Proof.
  split.
  - split; [simpl; lia | now exists []].
  - intros j Hj [_ [post H]].
    do 9 (destruct j as [|j]; [discriminate H|]). lia.
Qed.

(** [Test_findBytePattern]: the pattern "09" is found, without an error, at
    a position that holds the byte 9. *)
Example Test_findBytePattern :
  exists pos, findBytePattern "09" test_buf = (Z.of_nat pos, None) /\
              option_map Z_of_byte (nth_error test_buf pos) = Some (Z.of_nat pos).
Proof. exists 9%nat. split; reflexivity. Qed.

(** The scenario of C6: "09" in the bytes 0x00 .. 0x09 is found at 9. *)
Lemma findBytePattern_first_occurrence_witness :
  findBytePattern "09" test_buf = (9, None) /\ first_occurrence [x09] test_buf 9.
Proof.
  destruct (findBytePattern_first_occurrence "09" test_buf [x09] eq_refl
              (ex_intro _ 9%nat (proj1 test_buf_first_09))) as [k [Hk Hf]].
  rewrite (first_occurrence_unique _ _ _ _ Hf test_buf_first_09) in Hk.
  split; [exact Hk | exact test_buf_first_09].
Defined.

(** ** Machine arithmetic *)

Lemma wrap64_small (z : Z) : in_int64 z -> wrap64 z = z.
Proof.
  unfold in_int64, minInt64, maxInt64, wrap64, wrap. intros H.
  change (2 ^ (64 - 1)) with 9223372036854775808.
  change (2 ^ 64) with 18446744073709551616.
  change (2 ^ 63) with 9223372036854775808 in H.
  rewrite Z.mod_small by lia. lia.
Qed.

(** ** The literals [strconv.ParseInt] reads *)

Lemma digit_nonneg (c : ascii) (v : Z) : strconv.digit c = Some v -> 0 <= v.
Proof.
  unfold strconv.digit, utf8.between. intros H.
  repeat match type of H with
         | (if ?b then _ else _) = _ => destruct b eqn:?
         end; try discriminate; injection H as <-; lia.
Qed.

Lemma literal_value_ge (base : Z) (s : string) (n v : Z) :
  1 <= base -> 0 <= n -> literal_value base n s = Some v -> n <= v.
Proof.
  intros Hb. revert n. induction s as [|c s IH]; intros n Hn H; simpl in H.
  - injection H as <-. lia.
  - destruct (strconv.digit c) as [d|] eqn:Ed; [|discriminate].
    destruct (d <? base); [|discriminate].
    pose proof (digit_nonneg _ _ Ed).
    apply IH in H; nia.
Qed.

(** The loop of [ParseUint] computes the value of the digits, as long as
    the value fits 64 bits. *)
Lemma digits_literal (base : Z) (s : string) (n v : Z) :
  2 <= base -> 0 <= n ->
  literal_value base n s = Some v -> v <= maxUint64 ->
  strconv.digits base n s = (v, None).
Proof.
  intros Hb. revert n. induction s as [|c s IH]; intros n Hn H Hv; simpl in *.
  - now injection H as <-.
  - destruct (strconv.digit c) as [d|] eqn:Ed; [|discriminate].
    pose proof (digit_nonneg _ _ Ed) as Hd.
    destruct (Z.ltb_spec d base) as [Hlt|]; [|discriminate].
    destruct (Z.leb_spec base d); [lia|].
    assert (Hge : n * base + d <= v)
      by (apply (literal_value_ge base s); [lia | nia | exact H]).
    assert (Hnb : n * base <= maxUint64) by lia.
    destruct (Z.leb_spec (maxUint64 / base + 1) n) as [Hc|Hc].
    { exfalso.
      pose proof (Z.div_le_lower_bound maxUint64 base n ltac:(lia) ltac:(nia)).
      lia. }
    unfold wrapU64. unfold maxUint64 in *.
    rewrite (Z.mod_small (n * base)) by nia.
    rewrite (Z.mod_small (n * base + d)) by nia.
    destruct (Z.ltb_spec (n * base + d) (n * base)); [lia|].
    destruct (Z.ltb_spec (2 ^ 64 - 1) (n * base + d)); [lia|].
    simpl. apply IH; [nia | exact H | exact Hv].
Qed.

Lemma literal_nonneg (s : string) (v : Z) : literal s v -> 0 <= v.
Proof.
  intros [c t w _ H | x t w _ _ H | t w H];
    apply literal_value_ge in H; lia.
Qed.

Lemma ParseUint_literal (s : string) (v : Z) :
  literal s v -> v <= maxUint64 -> strconv.ParseUint s = (v, None).
Proof.
  intros [c t w Hc H | x t w Hx Ht H | t w H] Hv; unfold strconv.ParseUint.
  - rewrite Hc. apply digits_literal; [lia | lia | exact H | exact Hv].
  - change (strconv.isChar "0" 48) with true. cbv iota. rewrite Hx.
    destruct t; [congruence|].
    apply digits_literal; [lia | lia | exact H | exact Hv].
  - change (strconv.isChar "0" 48) with true. cbv iota.
    destruct t as [|c1 t'].
    + apply digits_literal; [lia | lia | exact H | exact Hv].
    + destruct (strconv.isChar c1 120 || strconv.isChar c1 88) eqn:Ex.
      * exfalso. simpl in H. unfold strconv.isChar in Ex.
        unfold strconv.digit, utf8.between in H.
        apply orb_true_iff in Ex. destruct Ex as [Ex | Ex];
          apply Z.eqb_eq in Ex; rewrite Ex in H; simpl in H; discriminate.
      * apply digits_literal; [lia | lia | exact H | exact Hv].
Qed.

(** A literal that fits [int64] parses to its value. *)
Theorem ParseInt_literal (s : string) (v : Z) :
  literal s v -> v <= maxInt64 -> strconv.ParseInt s = (v, None).
Proof.
  intros Hl Hv. pose proof (literal_nonneg _ _ Hl) as H0.
  assert (Hu : strconv.ParseUint s = (v, None))
    by (apply ParseUint_literal; [exact Hl | unfold maxInt64, maxUint64 in *; lia]).
  assert (Hsign : exists c t, s = String c t /\
                   strconv.isChar c 43 = false /\ strconv.isChar c 45 = false).
  { destruct Hl as [c t w Hc H | x t w _ _ _ | t w _].
    - exists c, t. split; [reflexivity|]. simpl in H.
      unfold strconv.isChar. unfold strconv.digit, utf8.between in H.
      split; apply Z.eqb_neq; intros E; rewrite E in H; simpl in H; discriminate.
    - eexists _, _. split; [reflexivity|]. split; reflexivity.
    - eexists _, _. split; [reflexivity|]. split; reflexivity. }
  destruct Hsign as [c [t [-> [Hp Hm]]]].
  unfold strconv.ParseInt. rewrite Hp, Hm. cbv iota. simpl orb. cbv iota.
  rewrite Hu. cbv iota beta.
  unfold maxInt64 in Hv.
  destruct (Z.leb_spec (2 ^ 63) v); [lia|]. simpl.
  rewrite wrap64_small by (unfold in_int64, minInt64, maxInt64; lia).
  reflexivity.
Qed.

(** A literal after a minus sign parses to the opposite of its value, down
    to the least [int64]. *)
Theorem ParseInt_minus_literal (s : string) (v : Z) :
  literal s v -> v <= 2 ^ 63 -> strconv.ParseInt (String "-" s) = (- v, None).
Proof.
  intros Hl Hv. pose proof (literal_nonneg _ _ Hl) as H0.
  assert (Hu : strconv.ParseUint s = (v, None))
    by (apply ParseUint_literal; [exact Hl | unfold maxUint64; lia]).
  unfold strconv.ParseInt.
  change (strconv.isChar "-" 45) with true.
  change (strconv.isChar "-" 43) with false.
  change (2 ^ 63) with 9223372036854775808 in *.
  cbv iota. change (false || true) with true. cbv iota. rewrite Hu.
  cbv iota beta zeta. change (negb true) with false.
  change (false && (9223372036854775808 <=? v)) with false.
  change (true && (9223372036854775808 <? v)) with (9223372036854775808 <? v).
  cbv iota.
  destruct (Z.ltb_spec 9223372036854775808 v); [lia|].
  f_equal. unfold wrap64, wrap.
  change (2 ^ (64 - 1)) with 9223372036854775808.
  change (2 ^ 64) with 18446744073709551616.
  destruct (Z.eq_dec v 9223372036854775808) as [-> | Hne]; [reflexivity|].
  rewrite (Z.mod_small (v + _)) by lia.
  replace (v + 9223372036854775808 - 9223372036854775808) with v by lia.
  rewrite Z.mod_small by lia. lia.
Qed.

Example ParseInt_literals :
  strconv.ParseInt "160" = (160, None) /\
  strconv.ParseInt "0x10" = (16, None) /\
  strconv.ParseInt "010" = (8, None) /\
  strconv.ParseInt "-5" = (-5, None) /\
  strconv.ParseInt "+5" = (5, None) /\
  strconv.ParseInt "9223372036854775807" = (maxInt64, None) /\
  strconv.ParseInt "-9223372036854775808" = (minInt64, None).
Proof. repeat split. Qed.

Example ParseInt_errors :
  strconv.ParseInt "" = (0, Some strconv.ErrSyntax) /\
  strconv.ParseInt "zz" = (0, Some strconv.ErrSyntax) /\
  strconv.ParseInt "08" = (0, Some strconv.ErrSyntax) /\
  strconv.ParseInt "0x" = (0, Some strconv.ErrSyntax) /\
  strconv.ParseInt "9223372036854775808" = (maxInt64, Some strconv.ErrRange) /\
  strconv.ParseInt "-9223372036854775809" = (minInt64, Some strconv.ErrRange).
Proof. repeat split. Qed.

(** ** The reducer, case by case *)

(** Selects the case of [rootReducer] for an action whose name is known. *)
Ltac dispatch a Hname :=
  let n := fresh "n" in
  let val := fresh "val" in
  destruct a as [n val]; simpl in Hname; subst n;
  unfold rootReducer; simpl.

Section Reducer.

Variable RuneWidth : rune -> Z.

Lemma reduce_KeyUp (st : AppState) (a : Action) :
  name a = BinxKeyUp ->
  rootReducer RuneWidth st a =
    Next (set_startByte
            (let z := wrap64 (startByte st - byteVisWidth st) in
             if z <? 0 then 0 else z)
            (set_lastAction BinxKeyUp st)).
Proof.
  intros Hname. dispatch a Hname.
  destruct (wrap64 (startByte st - byteVisWidth st) <? 0); reflexivity.
Qed.

(** C8: with a non-negative offset and a positive width, the Up key in
    normal mode moves the viewport one row up and stops at offset 0:
    [startByte] becomes [max 0 (startByte - byteVisWidth)], which is 0
    whenever [startByte < byteVisWidth]; nothing else changes but the name
    of the last action. *)
Theorem KeyUp_clamps_at_zero (st : AppState) (a : Action) :
  name a = BinxKeyUp ->
  mode st = NormalMode ->
  0 <= startByte st <= maxInt64 ->
  0 < byteVisWidth st <= maxInt64 ->
  rootReducer RuneWidth st a =
    Next (set_startByte (Z.max 0 (startByte st - byteVisWidth st))
            (set_lastAction BinxKeyUp st))
  /\ (startByte st < byteVisWidth st ->
      rootReducer RuneWidth st a =
        Next (set_startByte 0 (set_lastAction BinxKeyUp st))).
Proof.
  intros Hname _ Hs Hw. rewrite (reduce_KeyUp st a Hname).
  unfold maxInt64 in *.
  rewrite wrap64_small by (unfold in_int64, minInt64, maxInt64; lia).
  cbv zeta. split.
  - destruct (Z.ltb_spec (startByte st - byteVisWidth st) 0);
      do 2 f_equal; lia.
  - intros Hlt. destruct (Z.ltb_spec (startByte st - byteVisWidth st) 0);
      [reflexivity | lia].
Qed.

(** C9: Escape in seek-input or in pattern-input mode returns to normal
    mode with the input cleared; the offset and the highlight position
    stay as they were. *)
Theorem Escape_cancels_input (st : AppState) (a : Action) :
  name a = BinxEscape ->
  mode st = SeekInputMode \/ mode st = PatternInputMode ->
  exists st', rootReducer RuneWidth st a = Next st' /\
    mode st' = NormalMode /\ userInput st' = "" /\
    startByte st' = startByte st /\ highlightPos st' = highlightPos st.
Proof.
  intros Hname Hmode. destruct st; simpl in Hmode.
  dispatch a Hname.
  destruct Hmode as [-> | ->]; simpl; eexists; split; try reflexivity;
    simpl; auto.
Qed.

(** C10: Enter in normal mode changes nothing but the name of the last
    action. *)
Theorem Enter_in_NormalMode (st : AppState) (a : Action) :
  name a = BinxKeyEnter ->
  mode st = NormalMode ->
  rootReducer RuneWidth st a = Next (set_lastAction (name a) st).
Proof.
  intros Hname Hmode. destruct st; simpl in Hmode; subst.
  dispatch a Hname. reflexivity.
Qed.

(** C4, as the code has it: Enter in seek-input mode always returns to
    normal mode and clears the input, whether the input parses or not, and
    leaves the status and the highlight position alone (no error is
    surfaced); when the input parses, [startByte] is the parsed value: the
    value of a decimal, [0x] or [0] literal that fits [int64]. *)
Theorem SeekInput_commit (st : AppState) (a : Action) :
  name a = BinxKeyEnter ->
  mode st = SeekInputMode ->
  exists st', rootReducer RuneWidth st a = Next st' /\
    mode st' = NormalMode /\ userInput st' = "" /\
    status st' = status st /\ highlightPos st' = highlightPos st /\
    (forall v, strconv.ParseInt (userInput st) = (v, None) -> startByte st' = v) /\
    (forall v, literal (userInput st) v -> v <= maxInt64 -> startByte st' = v).
Proof.
  intros Hname Hmode.
  assert (H : exists st', rootReducer RuneWidth st a = Next st' /\
    mode st' = NormalMode /\ userInput st' = "" /\
    status st' = status st /\ highlightPos st' = highlightPos st /\
    (forall v, strconv.ParseInt (userInput st) = (v, None) -> startByte st' = v)).
  { destruct st; simpl in Hmode; subst. dispatch a Hname.
    destruct (strconv.ParseInt userInput0) as [v' [e|]]; simpl;
      eexists; (split; [reflexivity|]); simpl; repeat split;
      intros v Hv; congruence. }
  destruct H as [st' [H [Hm [Hu [Hs [Hh Hv]]]]]].
  exists st'. repeat split; try assumption.
  intros v Hl Hle. apply Hv. now apply ParseInt_literal.
Qed.

(** What [startByte] becomes when the input does not parse: the number
    [strconv.ParseInt] returns beside the error. *)
Lemma SeekInput_commit_startByte (st : AppState) (a : Action) :
  name a = BinxKeyEnter ->
  mode st = SeekInputMode ->
  exists st', rootReducer RuneWidth st a = Next st' /\
    startByte st' = fst (strconv.ParseInt (userInput st)).
Proof.
  intros Hname Hmode. destruct st; simpl in Hmode; subst.
  dispatch a Hname.
  destruct (strconv.ParseInt userInput0) as [v' [e|]]; simpl;
    eexists; (split; [reflexivity|]); reflexivity.
Qed.

(** A literal after a minus sign is taken as it is: the offset becomes the
    opposite of its value. *)
Lemma SeekInput_commit_minus (st : AppState) (a : Action) (s : string) (v : Z) :
  name a = BinxKeyEnter ->
  mode st = SeekInputMode ->
  userInput st = String "-" s ->
  literal s v -> v <= 2 ^ 63 ->
  exists st', rootReducer RuneWidth st a = Next st' /\ startByte st' = - v.
Proof.
  intros Hname Hmode Hin Hl Hv.
  destruct (SeekInput_commit_startByte st a Hname Hmode) as [st' [H Hs]].
  exists st'. split; [exact H|].
  rewrite Hs, Hin, (ParseInt_minus_literal s v Hl Hv). reflexivity.
Qed.

(** C3, as the code has it: Enter in pattern-input mode clears the input
    and stays in pattern-input mode, whatever the search gives, and leaves
    the offset alone.  A pattern that decodes and occurs in the buffer sets
    [highlightPos] to the offset of its first occurrence; one that decodes
    and does not occur sets it to -1; in both cases the status is left
    alone.  An invalid pattern sets the status to the decoder's message. *)
Theorem PatternInput_commit (st : AppState) (a : Action) :
  name a = BinxKeyEnter ->
  mode st = PatternInputMode ->
  exists st', rootReducer RuneWidth st a = Next st' /\
    mode st' = PatternInputMode /\ userInput st' = "" /\
    startByte st' = startByte st /\
    (forall pat k, hex.DecodeString (userInput st) = (pat, None) ->
                   first_occurrence pat (elems (dat st)) k ->
                   highlightPos st' = Z.of_nat k /\ status st' = status st) /\
    (forall pat, hex.DecodeString (userInput st) = (pat, None) ->
                 (forall i, ~ occurs_at pat (elems (dat st)) i) ->
                 highlightPos st' = -1 /\ status st' = status st) /\
    (invalid_hex (userInput st) ->
     exists out e, hex.DecodeString (userInput st) = (out, Some e) /\
                   status st' = hex.Error e).
Proof.
  intros Hname Hmode. destruct st; simpl in Hmode; subst.
  dispatch a Hname. unfold findBytePattern.
  destruct (hex.DecodeString userInput0) as [pat0 [e|]] eqn:Hd; simpl;
    eexists; (split; [reflexivity|]); simpl;
    (split; [reflexivity|]); (split; [reflexivity|]); (split; [reflexivity|]).
  - split; [|split].
    + intros pat k H; discriminate.
    + intros pat H; discriminate.
    + intros _. exists pat0, e. now split.
  - split; [|split].
    + intros pat k H Hk. injection H as <-. split; [|reflexivity].
      destruct (Index_found (elems dat0) pat0) as [k' [Hk' Hf]].
      { exists k. apply Hk. }
      rewrite Hk'. f_equal. exact (first_occurrence_unique _ _ _ _ Hf Hk).
    + intros pat H Hnone. injection H as <-. split; [|reflexivity].
      now apply Index_absent.
    + intros Hinv. apply DecodeString_invalid in Hinv.
      destruct Hinv as [out [e He]]. congruence.
Qed.

(** C7 fails on the code: in pattern-input mode a key other than [f] is
    dropped.  The action of any other character, and that of [s], leave
    the input as it was; only the name of the last action changes. *)
Theorem PatternInput_drops_keys (st : AppState) (a : Action) :
  name a = BinxKeyOther \/ name a = BinxKeyS ->
  mode st = PatternInputMode ->
  rootReducer RuneWidth st a = Next (set_lastAction (name a) st).
Proof.
  intros Hname Hmode. destruct st; simpl in Hmode; subst.
  destruct Hname as [Hname | Hname]; dispatch a Hname; reflexivity.
Qed.

(** The one key that pattern-input mode takes: [f]. *)
Lemma PatternInput_appends_KeyF (st : AppState) (r : rune) :
  mode st = PatternInputMode ->
  rootReducer RuneWidth st {| name := BinxKeyF; value := RuneValue r |} =
    Next (set_userInput (userInput st ++ string_of_rune r)
            (set_lastAction BinxKeyF st)).
Proof.
  intros Hmode. destruct st; simpl in Hmode; subst. reflexivity.
Qed.

(** Seek-input mode takes every character. *)
Lemma SeekInput_appends (st : AppState) (a : Action) (r : rune) :
  name a = BinxKeyOther \/ name a = BinxKeyS ->
  value a = RuneValue r ->
  mode st = SeekInputMode ->
  rootReducer RuneWidth st a =
    Next (set_userInput (userInput st ++ string_of_rune r)
            (set_lastAction (name a) st)).
Proof.
  intros Hname Hv Hmode. destruct st; simpl in Hmode; subst.
  destruct Hname as [Hname | Hname]; dispatch a Hname;
    simpl in Hv; rewrite Hv; reflexivity.
Qed.

(** C1 fails on the code: from normal mode, the keys [s], [-], [5] and
    Enter leave [startByte] at -5. *)
Theorem seek_to_negative_offset (st : AppState) :
  mode st = NormalMode ->
  exists st', Reduce RuneWidth st (actions_of seek_minus_five) = Next st' /\
              startByte st' = -5.
Proof.
  intros Hmode. destruct st; simpl in Hmode; subst.
  eexists. split; vm_compute; reflexivity.
Qed.

End Reducer.

(** ** The renderer *)

Section Renderer.

Variable RuneWidth : rune -> Z.

(** C2 fails on the code: the viewport is sliced out of the buffer without
    a look at the buffer's size, so a viewport that ends past the capacity
    of the buffer makes [render] panic ("slice bounds out of range"). *)
Theorem render_panics_past_capacity (st : AppState) :
  0 <= startByte st ->
  0 < byteVisWidth st ->
  0 < byteVisHeight st ->
  startByte st + byteVisWidth st * byteVisHeight st <= maxInt64 ->
  cap (dat st) < startByte st + byteVisWidth st * byteVisHeight st ->
  render RuneWidth st = Panic.
Proof.
  intros Hs Hw Hh Hmax Hcap. destruct st; simpl in *.
  unfold render; simpl. unfold wrapInt. fold wrap64.
  assert (Hn : 0 < byteVisWidth0 * byteVisHeight0) by nia.
  unfold maxInt64 in Hmax.
  rewrite (wrap64_small (byteVisWidth0 * byteVisHeight0))
    by (unfold in_int64, minInt64, maxInt64; lia).
  destruct (Z.ltb_spec (byteVisWidth0 * byteVisHeight0) 0); [lia|].
  rewrite wrap64_small by (unfold in_int64, minInt64, maxInt64; lia).
  unfold slice.
  destruct (Z.leb_spec (startByte0 + byteVisWidth0 * byteVisHeight0) (cap dat0));
    [lia|].
  rewrite andb_false_r. reflexivity.
Qed.

(** With a column width other than 0 the loop over the bytes in view runs
    to its end. *)
Lemma drawBytes_returns (w : Z) (bs : list byte) (i : Z) (st : AppState) :
  w <> 0 -> exists st', drawBytes w i bs st = Some st'.
Proof.
  intros Hw. revert i st. induction bs as [|b bs IH]; intros i st; simpl.
  - now exists st.
  - destruct (Z.eqb_spec w 0); [contradiction|]. apply IH.
Qed.

(** A viewport that ends within the capacity of the buffer is drawn. *)
Lemma render_within_capacity (st : AppState) :
  0 <= startByte st ->
  0 < byteVisWidth st ->
  0 < byteVisHeight st ->
  startByte st + byteVisWidth st * byteVisHeight st <= cap (dat st) ->
  cap (dat st) <= maxInt64 ->
  exists st', render RuneWidth st = Next st'.
Proof.
  intros Hs Hw Hh Hcap Hmax. destruct st; simpl in *.
  unfold render; simpl. unfold wrapInt. fold wrap64.
  assert (Hn : 0 < byteVisWidth0 * byteVisHeight0) by nia.
  unfold maxInt64 in Hmax.
  rewrite (wrap64_small (byteVisWidth0 * byteVisHeight0))
    by (unfold in_int64, minInt64, maxInt64; lia).
  destruct (Z.ltb_spec (byteVisWidth0 * byteVisHeight0) 0); [lia|].
  rewrite wrap64_small by (unfold in_int64, minInt64, maxInt64; lia).
  unfold slice.
  destruct (Z.leb_spec 0 startByte0); [|lia].
  destruct (Z.leb_spec startByte0 (startByte0 + byteVisWidth0 * byteVisHeight0));
    [|lia].
  destruct (Z.leb_spec (startByte0 + byteVisWidth0 * byteVisHeight0) (cap dat0));
    [|lia].
  simpl.
  match goal with
  | |- context [drawBytes ?w ?i ?bs ?s] =>
    destruct (drawBytes_returns w bs i s ltac:(lia)) as [st' ->]
  end.
  eexists. reflexivity.
Qed.

End Renderer.

(** A viewport that ends past the length of the buffer but within its
    capacity is drawn in full: the cells past the end of the file show what
    the backing array holds there.  Here 160 cells for a file of ten bytes. *)
Example render_reads_past_length :
  exists st', render narrow (set_byteVisHeight 2 fresh_session) = Next st' /\
              cells_drawn (screen st') = 160%nat /\
              len (dat fresh_session) = 10.
Proof. eexists. split; [|split]; vm_compute; reflexivity. Qed.

(** ** The properties at concrete inputs *)

(** Two Down keys from the start of an 80-column view: offset 160. *)
Example two_KeyDown :
  exists st', Reduce narrow fresh_session (actions_of [arrow_down; arrow_down]) = Next st' /\
              startByte st' = 160.
Proof. eexists. split; vm_compute; reflexivity. Qed.

(** The offset is an [int64]: a Down key at the top of the range wraps it
    around to a negative one. *)
Example KeyDown_wraps :
  exists st', Reduce narrow (set_startByte maxInt64 fresh_session)
                (actions_of [arrow_down]) = Next st' /\
              startByte st' = minInt64 + 79.
Proof. eexists. split; vm_compute; reflexivity. Qed.

Lemma KeyUp_clamps_at_zero_witness :
  exists st', rootReducer narrow (session NormalMode "")
                {| name := BinxKeyUp; value := EventValue arrow_up |} = Next st' /\
              startByte st' = 80.
Proof.
  destruct (KeyUp_clamps_at_zero narrow (session NormalMode "")
              {| name := BinxKeyUp; value := EventValue arrow_up |}
              eq_refl eq_refl) as [H _].
  - simpl. unfold maxInt64. lia.
  - simpl. unfold maxInt64. lia.
  - rewrite H. eexists. split; reflexivity.
Defined.

Lemma Escape_cancels_input_witness :
  exists st', rootReducer narrow (session SeekInputMode "12")
                {| name := BinxEscape; value := EventValue escape |} = Next st' /\
              mode st' = NormalMode /\ userInput st' = "" /\ startByte st' = 160.
Proof.
  destruct (Escape_cancels_input narrow (session SeekInputMode "12")
              {| name := BinxEscape; value := EventValue escape |}
              eq_refl (or_introl eq_refl)) as [st' [H [Hm [Hu [Hs _]]]]].
  exists st'. repeat split; assumption.
Defined.

Lemma Enter_in_NormalMode_witness :
  rootReducer narrow (session NormalMode "") commit =
    Next (set_lastAction BinxKeyEnter (session NormalMode "")).
Proof.
  exact (Enter_in_NormalMode narrow (session NormalMode "") commit eq_refl eq_refl).
Defined.

(** In seek-input mode, "0x10" and Enter: offset 16, normal mode. *)
Lemma SeekInput_commit_witness :
  exists st', rootReducer narrow (session SeekInputMode "0x10") commit = Next st' /\
              startByte st' = 16 /\ mode st' = NormalMode /\ userInput st' = "".
Proof.
  destruct (SeekInput_commit narrow (session SeekInputMode "0x10") commit
              eq_refl eq_refl) as [st' [H [Hm [Hu [_ [_ [_ Hv]]]]]]].
  exists st'. repeat split; try assumption.
  apply Hv.
  - apply (literal_hex "x" "10" 16); [reflexivity | discriminate | reflexivity].
  - unfold maxInt64. lia.
Defined.

(** The claim C4 fails when the input does not parse: "zz" and Enter in
    seek-input mode end in normal mode with the input cleared, the offset
    reset from 160 to 0 and the status still empty. *)
Lemma SeekInput_commit_unparseable :
  exists st', rootReducer narrow (session SeekInputMode "zz") commit = Next st' /\
              mode st' = NormalMode /\ userInput st' = "" /\
              startByte (session SeekInputMode "zz") = 160 /\ startByte st' = 0 /\
              status st' = "".
Proof. eexists. split; [|repeat split]; vm_compute; reflexivity. Qed.

(** In pattern-input mode, "09" and Enter: the match at offset 9. *)
Lemma PatternInput_commit_witness :
  exists st', rootReducer narrow (session PatternInputMode "09") commit = Next st' /\
              highlightPos st' = 9 /\ mode st' = PatternInputMode /\
              userInput st' = "".
Proof.
  destruct (PatternInput_commit narrow (session PatternInputMode "09") commit
              eq_refl eq_refl) as [st' [H [Hm [Hu [_ [Hfound _]]]]]].
  exists st'. repeat split; try assumption.
  apply (Hfound [x09] 9%nat); [reflexivity | exact test_buf_first_09].
Defined.

(** The claim C3 fails: "zz" and Enter in pattern-input mode stay in
    pattern-input mode, and the highlight position, 7 before, is 0 after. *)
Lemma PatternInput_commit_invalid_pattern :
  exists st', rootReducer narrow (session PatternInputMode "zz") commit = Next st' /\
              mode st' = PatternInputMode /\
              highlightPos (session PatternInputMode "zz") = 7 /\
              highlightPos st' = 0 /\
              status st' = "encoding/hex: invalid byte: U+007A 'z'".
Proof. eexists. split; [|repeat split]; vm_compute; reflexivity. Qed.

(** In pattern-input mode the key [0] leaves the input empty. *)
Lemma PatternInput_drops_keys_witness :
  Some {| name := BinxKeyOther; value := RuneValue 48 |} = HandleTcellEvent (press 48) /\
  exists st', rootReducer narrow (session PatternInputMode "")
                {| name := BinxKeyOther; value := RuneValue 48 |} = Next st' /\
              userInput st' = "".
Proof.
  split; [reflexivity|].
  eexists. split.
  - exact (PatternInput_drops_keys narrow (session PatternInputMode "")
             {| name := BinxKeyOther; value := RuneValue 48 |}
             (or_introl eq_refl) eq_refl).
  - reflexivity.
Defined.

Lemma seek_to_negative_offset_witness :
  exists st', Reduce narrow fresh_session (actions_of seek_minus_five) = Next st' /\
              startByte st' = -5.
Proof.
  exact (seek_to_negative_offset narrow fresh_session eq_refl).
Defined.

(** The ten-byte file in an 80x24 terminal: the first frame panics. *)
Lemma render_panics_past_capacity_witness :
  render narrow fresh_session = Panic.
Proof.
  apply render_panics_past_capacity; vm_compute; congruence.
Defined.

(** ** What reaches the screen *)

Lemma combine_seq_shift (A : Type) (l : list A) (k : nat) :
  combine (seq (S k) (List.length l)) l =
    map (fun kx => (S (fst kx), snd kx)) (combine (seq k (List.length l)) l).
Proof.
  revert k. induction l as [|x l IH]; intros k; simpl; [reflexivity|].
  f_equal. apply IH.
Qed.

(** A string of characters below U+0080 is read one rune a character. *)
Lemma runes_ascii (s : string) :
  (forall c, In c (list_ascii_of_string s) -> Z_of_ascii c < 128) ->
  utf8.runes s = Zs_of_string s.
Proof.
  unfold utf8.runes. induction s as [|c s IH]; intros H; [reflexivity|].
  simpl String.length. simpl Zs_of_string. cbn [utf8.runes_from].
  unfold utf8.DecodeRune.
  destruct (Z.ltb_spec (Z_of_ascii c) 128) as [_|Hge].
  - simpl skipn. f_equal. apply IH. intros c' Hc'. apply H. simpl. auto.
  - exfalso. specialize (H c (or_introl eq_refl)). lia.
Qed.

Lemma Zs_of_string_length (s : string) :
  List.length (Zs_of_string s) = String.length s.
Proof. induction s; simpl; congruence. Qed.

Section Screen_output.

Variable RuneWidth : rune -> Z.

Lemma call_calls (c : ScreenCall) (s : Screen) :
  calls (call c s) = (calls s ++ [c])%list /\ Size (call c s) = Size s.
Proof. split; reflexivity. Qed.

Lemma emitRunes_calls (rs : list rune) (s : Screen) (x y : Z) (style : Style) :
  exists added,
    calls (emitRunes RuneWidth s x y style rs) = (calls s ++ added)%list /\
    Size (emitRunes RuneWidth s x y style rs) = Size s /\
    List.length added = List.length rs /\
    Forall (on_row y style) added.
Proof.
  revert s x. induction rs as [|c rs IH]; intros s x; simpl.
  - exists []. rewrite app_nil_r. repeat split. constructor.
  - destruct (RuneWidth c =? 0);
      match goal with
      | |- context [emitRunes _ (call ?k s) ?x' _ _ _] =>
        destruct (IH (call k s) x') as [added [Hc [Hs [Hl Hf]]]];
        exists (k :: added)
      end;
      (split; [rewrite Hc; simpl; rewrite <- app_assoc; reflexivity|]);
      (split; [rewrite Hs; reflexivity|]);
      (split; [simpl; now rewrite Hl|]);
      (constructor; [simpl; auto | exact Hf]).
Qed.

(** [emitStr] only adds to the screen: one cell for each rune of the
    string, every one of them on the row [y] and in the style it was given;
    it makes no other call. *)
Theorem emitStr_row (s : Screen) (x y : Z) (style : Style) (str : string) :
  exists added,
    calls (emitStr RuneWidth s x y style str) = (calls s ++ added)%list /\
    Size (emitStr RuneWidth s x y style str) = Size s /\
    List.length added = List.length (utf8.runes str) /\
    Forall (on_row y style) added.
Proof. unfold emitStr. apply emitRunes_calls. Qed.

Lemma emitRunes_unit (rs : list rune) (s : Screen) (x y : Z) (style : Style) :
  (forall r, In r rs -> RuneWidth r = 1) ->
  minInt64 <= x -> x + Z.of_nat (List.length rs) <= maxInt64 ->
  calls (emitRunes RuneWidth s x y style rs) =
    (calls s ++
     map (fun kr => SetContent (x + Z.of_nat (fst kr)) y (snd kr) [] style)
       (combine (seq 0 (List.length rs)) rs))%list.
Proof.
  revert s x. induction rs as [|r rs IH]; intros s x Hw Hlo Hhi.
  - simpl. now rewrite app_nil_r.
  - cbn [emitRunes]. rewrite (Hw r (or_introl eq_refl)).
    change (1 =? 0) with false. cbv iota beta.
    simpl List.length in *. rewrite Nat2Z.inj_succ in Hhi.
    unfold wrapInt. fold wrap64.
    rewrite wrap64_small by (unfold in_int64, minInt64, maxInt64 in *; lia).
    rewrite IH;
      [ | intros r' Hr'; apply Hw; simpl; auto
        | unfold minInt64 in *; lia | lia ].
    simpl calls. rewrite <- app_assoc. f_equal. simpl.
    f_equal; [now rewrite Z.add_0_r|].
    rewrite combine_seq_shift, map_map.
    apply map_ext. intros [k r']. simpl fst. simpl snd. f_equal. lia.
Qed.

(** Plain text goes on the screen from left to right: when the characters
    of the string are below U+0080 and one cell wide each, [emitStr] sets
    the character at index [k] of the string in column [x + k] of row [y],
    with no combining characters, and makes no other call. *)
Theorem emitStr_ascii (s : Screen) (x y : Z) (style : Style) (str : string) :
  (forall c, In c (list_ascii_of_string str) ->
             Z_of_ascii c < 128 /\ RuneWidth (Z_of_ascii c) = 1) ->
  minInt64 <= x -> x + Z.of_nat (String.length str) <= maxInt64 ->
  calls (emitStr RuneWidth s x y style str) =
    (calls s ++
     map (fun kr => SetContent (x + Z.of_nat (fst kr)) y (snd kr) [] style)
       (combine (seq 0 (String.length str)) (Zs_of_string str)))%list.
Proof.
  intros H Hlo Hhi. unfold emitStr.
  rewrite runes_ascii by (intros c Hc; apply (H c Hc)).
  rewrite <- (Zs_of_string_length str) in Hhi |- *.
  apply emitRunes_unit; [|exact Hlo | exact Hhi].
  clear Hlo Hhi. induction str as [|c str IH]; intros r Hr; simpl in Hr;
    [contradiction|].
  destruct Hr as [<- | Hr].
  - apply (H c). simpl. auto.
  - apply IH; [|exact Hr]. intros c' Hc'. apply H. simpl. auto.
Qed.

End Screen_output.

(** ** The reducer as a whole *)

(** Splits a goal about [rootReducer] by the name of the action, in the
    order of the cases of its [switch]. *)
Ltac by_name a :=
  unfold rootReducer;
  destruct (String.eqb_spec (name a) BinxKeyUp);
  [|destruct (String.eqb_spec (name a) BinxKeyDown);
    [|destruct (String.eqb_spec (name a) BinxResize);
      [|destruct (String.eqb_spec (name a) BinxEscape);
        [|destruct (String.eqb_spec (name a) BinxKeyEnter);
          [|destruct (String.eqb_spec (name a) BinxSetScreenStyle);
            [|destruct (String.eqb_spec (name a) BinxKeyS);
              [|destruct (String.eqb_spec (name a) BinxKeyF);
                [|destruct (String.eqb_spec (name a) BinxKeyOther)]]]]]]]].

(** Unfolds the names of the actions, to tell them apart. *)
Ltac names :=
  cbv [BinxResize BinxEscape BinxKeyEnter BinxKeyUp BinxKeyDown
       BinxSetScreenStyle BinxToggleSeekMode BinxKeyS BinxKeyF BinxKeyOther] in *.

(** Splits what is left of a case of [rootReducer]: the mode, the results
    of the parse and of the search, the clamp, the dynamic value. *)
Ltac by_case :=
  repeat match goal with
         | |- context [Mode_eqb ?m _] =>
           is_var m; destruct m; simpl
         | |- context [strconv.ParseInt ?s] =>
           destruct (strconv.ParseInt s) as [? [?|]]; simpl
         | |- context [findBytePattern ?p ?b] =>
           let E := fresh "Efind" in
           destruct (findBytePattern p b) as [? [?|]] eqn:E; simpl
         | |- context [wrap64 ?z <? 0] =>
           let E := fresh "Eclamp" in
           destruct (Z.ltb_spec (wrap64 z) 0) as [E|E]; simpl
         | |- context [Size ?s] =>
           is_var s; let E := fresh "Esize" in destruct (Size s) eqn:E; simpl
         | |- context [match ?v with EventValue _ => _ | _ => _ end] =>
           is_var v; destruct v; simpl
         end.

Section Reducer_whole.

Variable RuneWidth : rune -> Z.

(** The reducer panics exactly on a failed type assertion: a style action
    without a style, or a key action that is to be appended to the input and
    carries no rune. *)
Lemma rootReducer_panics_iff (st : AppState) (a : Action) :
  rootReducer RuneWidth st a = Panic <->
  (name a = BinxSetScreenStyle /\ is_style (value a) = false) \/
  (name a = BinxKeyS /\ mode st = SeekInputMode /\ is_rune (value a) = false) \/
  (name a = BinxKeyF /\ mode st <> NormalMode /\ is_rune (value a) = false) \/
  (name a = BinxKeyOther /\ mode st = SeekInputMode /\ is_rune (value a) = false).
Proof.
  destruct st, a as [n v]; simpl.
  by_name {| name := n; value := v |}; simpl in *; subst; by_case;
    (split; [try discriminate; intros _; intuition congruence
            | intros H; decompose [or and] H; clear H; names;
              try reflexivity; congruence]).
Qed.

(** What the input translator sends is typed as the reducer expects it. *)
Lemma translated_typed (ev : Event) (a : Action) :
  HandleTcellEvent ev = Some a ->
  name a <> BinxSetScreenStyle /\
  (name a = BinxKeyS \/ name a = BinxKeyF \/ name a = BinxKeyOther ->
   is_rune (value a) = true).
Proof.
  destruct ev as [|key r|]; simpl; [| |discriminate].
  - intros H; injection H as <-. simpl. split; [discriminate|].
    intros [H | [H | H]]; discriminate H.
  - destruct key;
      try (intros H; injection H as <-; simpl; split; [discriminate|];
           intros [H | [H | H]]; discriminate H);
      destruct (r =? 115); [|destruct (r =? 102)| |destruct (r =? 102)];
      intros H; injection H as <-; simpl; (split; [discriminate | reflexivity]).
Qed.

(** The reducer never panics on what the input translator sends: over any
    sequence of terminal events, in any state, [Reduce] ends with a state or
    with the exit of the process. *)
Theorem Reduce_translated_never_panics (st : AppState) (evs : list Event) :
  Reduce RuneWidth st (actions_of evs) <> Panic.
Proof.
  revert st. induction evs as [|ev evs IH]; intros st; [discriminate|].
  unfold actions_of in *. simpl.
  destruct (HandleTcellEvent ev) as [a|] eqn:Ea; simpl; [|apply IH].
  destruct (rootReducer RuneWidth st a) as [st'| |] eqn:E;
    [apply IH | discriminate |].
  exfalso. apply rootReducer_panics_iff in E.
  destruct (translated_typed ev a Ea) as [Hs Hr].
  destruct E as [[H _] | [[H [_ Hv]] | [[H [_ Hv]] | [H [_ Hv]]]]];
    [contradiction | | |]; rewrite Hr in Hv by tauto; discriminate.
Qed.

(** The process exits on one transition only: Escape in normal mode; the
    exit code is 0 and the last call on the screen is [Fini]. *)
Theorem rootReducer_exits_iff (st st' : AppState) (a : Action) (code : Z) :
  rootReducer RuneWidth st a = Exit code st' <->
  name a = BinxEscape /\ mode st = NormalMode /\ code = 0 /\
  st' = set_screen (call Fini (screen st)) (set_lastAction BinxEscape st).
Proof.
  destruct st, a as [n v]; simpl.
  by_name {| name := n; value := v |}; simpl in *; subst; by_case;
    (split; [try discriminate; intros H; injection H as <- <-; auto
            | intros H; decompose [and] H; clear H; names; subst;
              try reflexivity; congruence]).
Qed.

(** An error of the search means an invalid pattern. *)
Lemma findBytePattern_error_inv (p : string) (buf : list byte) (z : Z) (e : hex.error) :
  findBytePattern p buf = (z, Some e) -> invalid_hex p.
Proof.
  unfold findBytePattern. intros H. apply DecodeString_invalid.
  destruct (hex.DecodeString p) as [out [e'|]]; [eauto | discriminate].
Qed.

(** The fields the reducer leaves alone, whatever the action: the file and
    its bytes, the width of the grid, the styles, the highlight length and
    the size of the screen.  It records the name of the action, and on the
    screen it only adds calls. *)
Theorem rootReducer_frame (st st' : AppState) (a : Action) :
  rootReducer RuneWidth st a = Next st' ->
  filename st' = filename st /\ dat st' = dat st /\
  byteVisWidth st' = byteVisWidth st /\
  statStyle st' = statStyle st /\ byteStyle st' = byteStyle st /\
  alertStyle st' = alertStyle st /\
  highlightLength st' = highlightLength st /\
  lastAction st' = name a /\
  Size (screen st') = Size (screen st) /\
  exists added, calls (screen st') = (calls (screen st) ++ added)%list.
Proof.
  destruct st, a as [n v]; simpl.
  by_name {| name := n; value := v |}; simpl in *; subst; by_case;
    intros H; try discriminate H; injection H as <-; simpl;
    repeat (split; [reflexivity|]);
    try match goal with
        | |- context [emitStr _ ?s ?x ?y ?sty ?str] =>
          destruct (emitRunes_calls RuneWidth (utf8.runes str) s x y sty)
            as [added [Hc [Hs _]]];
          fold (emitStr RuneWidth s x y sty str) in Hc, Hs; rewrite Hs
        end;
    (split; [assumption|]);
    first [ eexists; eassumption
          | exists []; now rewrite app_nil_r
          | eexists; reflexivity ].
Qed.

(** Which transitions write which field: the offset changes on the arrow
    keys and on a committed seek only, the height of the grid on a resize
    only, the highlight position on a committed search only, and the status
    only when a committed search had an invalid pattern. *)
Theorem rootReducer_writes (st st' : AppState) (a : Action) :
  rootReducer RuneWidth st a = Next st' ->
  (startByte st' <> startByte st ->
   name a = BinxKeyUp \/ name a = BinxKeyDown \/
   (name a = BinxKeyEnter /\ mode st = SeekInputMode)) /\
  (byteVisHeight st' <> byteVisHeight st -> name a = BinxResize) /\
  (highlightPos st' <> highlightPos st ->
   name a = BinxKeyEnter /\ mode st = PatternInputMode) /\
  (status st' <> status st ->
   name a = BinxKeyEnter /\ mode st = PatternInputMode /\
   invalid_hex (userInput st)).
Proof.
  destruct st, a as [n v]; simpl.
  by_name {| name := n; value := v |}; simpl in *; subst; by_case;
    intros H; try discriminate H; injection H as <-; simpl;
    (split; [|split; [|split]]); intros Hne; try (now elim Hne);
    auto 6;
    (split; [reflexivity|]); (split; [reflexivity|]);
    eapply findBytePattern_error_inv; eassumption.
Qed.

(** The transitions between the modes: [s] and [f] leave normal mode,
    Escape and a committed seek return to it, each with the input empty;
    nothing else changes the mode. *)
Theorem rootReducer_mode (st st' : AppState) (a : Action) :
  rootReducer RuneWidth st a = Next st' ->
  mode st' = mode st \/
  (userInput st' = "" /\
   ((name a = BinxKeyS /\ mode st = NormalMode /\ mode st' = SeekInputMode) \/
    (name a = BinxKeyF /\ mode st = NormalMode /\ mode st' = PatternInputMode) \/
    (name a = BinxEscape /\ mode st <> NormalMode /\ mode st' = NormalMode) \/
    (name a = BinxKeyEnter /\ mode st = SeekInputMode /\ mode st' = NormalMode))).
Proof.
  destruct st, a as [n v]; simpl.
  by_name {| name := n; value := v |}; simpl in *; subst; by_case;
    intros H; try discriminate H; injection H as <-; simpl;
    try (left; reflexivity);
    right; (split; [reflexivity|]); intuition congruence.
Qed.

Lemma input_cleared_step (st st' : AppState) (a : Action) :
  input_cleared st -> rootReducer RuneWidth st a = Next st' -> input_cleared st'.
Proof.
  unfold input_cleared. destruct st, a as [n v]; simpl.
  by_name {| name := n; value := v |}; simpl in *; subst; by_case;
    intros Hinv H; try discriminate H; injection H as <-; simpl;
    intros Hm; try discriminate Hm; auto.
Qed.

(** An invariant of the reducer: in normal mode the input is empty.  Every
    way back to normal mode clears it, and normal mode never appends. *)
Theorem Reduce_input_cleared (st st' : AppState) (actions : list Action) :
  input_cleared st ->
  Reduce RuneWidth st actions = Next st' ->
  input_cleared st'.
Proof.
  revert st. induction actions as [|a actions IH]; intros st Hinv H; simpl in H.
  - now injection H as <-.
  - destruct (rootReducer RuneWidth st a) as [st1| |] eqn:E; try discriminate.
    apply (IH st1); [exact (input_cleared_step st st1 a Hinv E) | exact H].
Qed.

(** The offset stays non-negative under every transition but a committed
    seek, as long as one more row down does not overflow [int64]. *)
Theorem rootReducer_offset_nonneg (st st' : AppState) (a : Action) :
  0 <= startByte st ->
  0 <= byteVisWidth st ->
  startByte st + byteVisWidth st <= maxInt64 ->
  ~ (name a = BinxKeyEnter /\ mode st = SeekInputMode) ->
  rootReducer RuneWidth st a = Next st' ->
  0 <= startByte st'.
Proof.
  intros Hs Hw Hmax Hseek H. destruct st, a as [n v]; simpl in *.
  revert H. unfold maxInt64 in Hmax.
  by_name {| name := n; value := v |}; simpl in *; subst; by_case;
    intros H; try discriminate H; injection H as <-; simpl;
    try lia; try (exfalso; apply Hseek; now split).
  rewrite wrap64_small by (unfold in_int64, minInt64, maxInt64; lia). lia.
Qed.

End Reducer_whole.

(** ** Typing, seeking and scrolling *)

Lemma ascii_of_Z_of_ascii (c : ascii) : ascii_of_Z (Z_of_ascii c) = c.
Proof.
  unfold ascii_of_Z, Z_of_ascii.
  pose proof (N_ascii_bounded c) as Hb.
  rewrite Z.mod_small by lia.
  rewrite N2Z.id. apply ascii_N_embedding.
Qed.

(** The string of a rune below U+0080 is the one character. *)
Lemma string_of_rune_ascii (c : ascii) :
  Z_of_ascii c < 128 -> string_of_rune (Z_of_ascii c) = String c EmptyString.
Proof.
  intros H. unfold string_of_rune, utf8.EncodeRune.
  assert (H0 : 0 <= Z_of_ascii c) by (unfold Z_of_ascii; lia).
  destruct (Z.leb_spec 0 (Z_of_ascii c)); [|lia].
  destruct (Z.leb_spec (Z_of_ascii c) 127); [|lia].
  simpl. now rewrite ascii_of_Z_of_ascii.
Qed.

Lemma digit_ascii (c : ascii) (v : Z) :
  strconv.digit c = Some v -> Z_of_ascii c < 128.
Proof.
  unfold strconv.digit, utf8.between. intros H.
  repeat match type of H with
         | (if ?b then _ else _) = _ => destruct b eqn:?
         end; try discriminate; lia.
Qed.

Lemma literal_value_ascii (base : Z) (s : string) (n v : Z) (c : ascii) :
  literal_value base n s = Some v ->
  In c (list_ascii_of_string s) -> Z_of_ascii c < 128.
Proof.
  revert n. induction s as [|c0 s IH]; intros n H Hin; simpl in *; [contradiction|].
  destruct (strconv.digit c0) as [d|] eqn:Ed; [|discriminate].
  destruct (d <? base); [|discriminate].
  destruct Hin as [<- | Hin]; [exact (digit_ascii _ _ Ed) | exact (IH _ H Hin)].
Qed.

Lemma literal_ascii (s : string) (v : Z) (c : ascii) :
  literal s v -> In c (list_ascii_of_string s) -> Z_of_ascii c < 128.
Proof.
  intros [c0 t w _ H | x t w Hx _ H | t w H] Hin.
  - exact (literal_value_ascii _ _ _ _ _ H Hin).
  - simpl in Hin. destruct Hin as [<- | [<- | Hin]].
    + vm_compute. reflexivity.
    + unfold strconv.isChar in Hx. apply orb_true_iff in Hx.
      destruct Hx as [Hx | Hx]; apply Z.eqb_eq in Hx; lia.
    + exact (literal_value_ascii _ _ _ _ _ H Hin).
  - simpl in Hin. destruct Hin as [<- | Hin].
    + vm_compute. reflexivity.
    + exact (literal_value_ascii _ _ _ _ _ H Hin).
Qed.

Lemma actions_of_app (l1 l2 : list Event) :
  actions_of (l1 ++ l2) = (actions_of l1 ++ actions_of l2)%list.
Proof. unfold actions_of. apply flat_map_app. Qed.

Section Sessions.

Variable RuneWidth : rune -> Z.

Lemma Reduce_app (st : AppState) (l1 l2 : list Action) :
  Reduce RuneWidth st (l1 ++ l2) =
    match Reduce RuneWidth st l1 with
    | Next st1 => Reduce RuneWidth st1 l2
    | o => o
    end.
Proof.
  revert st. induction l1 as [|a l1 IH]; intros st; simpl; [reflexivity|].
  destruct (rootReducer RuneWidth st a); auto.
Qed.

(** In seek-input mode every character key is appended, [s] and [f] too. *)
Lemma press_in_SeekInput (st : AppState) (r : rune) :
  mode st = SeekInputMode ->
  exists a, actions_of [press r] = [a] /\
    rootReducer RuneWidth st a =
      Next (set_userInput (userInput st ++ string_of_rune r)
              (set_lastAction (name a) st)).
Proof.
  intros Hm. destruct st; simpl in Hm; subst.
  unfold actions_of, press. simpl.
  destruct (r =? 115); [|destruct (r =? 102)]; eexists; split; reflexivity.
Qed.

Lemma typing_in_SeekInput_aux (s : string) (st : AppState) :
  mode st = SeekInputMode ->
  (forall c, In c (list_ascii_of_string s) -> Z_of_ascii c < 128) ->
  exists st', Reduce RuneWidth st (actions_of (type_keys s)) = Next st' /\
    userInput st' = userInput st ++ s /\ mode st' = SeekInputMode /\
    startByte st' = startByte st /\ highlightPos st' = highlightPos st /\
    status st' = status st /\ dat st' = dat st.
Proof.
  revert st. induction s as [|c s IH]; intros st Hm Hascii.
  - exists st. simpl. repeat split; auto.
    clear. induction (userInput st); simpl; congruence.
  - change (type_keys (String c s))
      with ([press (Z_of_ascii c)] ++ type_keys s)%list.
    rewrite actions_of_app, Reduce_app.
    destruct (press_in_SeekInput st (Z_of_ascii c) Hm) as [a [-> Ha]].
    simpl. rewrite Ha.
    rewrite string_of_rune_ascii by (apply Hascii; simpl; auto).
    match goal with
    | |- context [Reduce _ ?st1 _] =>
      destruct (IH st1) as [st' [H [Hu [Hm' [Hs [Hh [Hst Hd]]]]]]];
        [exact Hm
        | intros c' Hc'; apply Hascii; simpl; auto
        | idtac]
    end.
    exists st'. split; [exact H|].
    rewrite Hu, Hm', Hs, Hh, Hst, Hd. destruct st; simpl.
    repeat split; auto.
    clear. induction userInput0; simpl; congruence.
Qed.


(** Enter in seek-input mode, as an equation. *)
Lemma commit_in_SeekInput (st : AppState) (a : Action) :
  name a = BinxKeyEnter ->
  mode st = SeekInputMode ->
  rootReducer RuneWidth st a =
    Next (set_mode NormalMode
            (set_userInput ""
               (set_startByte (fst (strconv.ParseInt (userInput st)))
                  (set_lastAction BinxKeyEnter st)))).
Proof.
  intros Hname Hmode. destruct st; simpl in Hmode; subst.
  dispatch a Hname.
  destruct (strconv.ParseInt userInput0) as [v' [e|]]; reflexivity.
Qed.

(** A seek from the keyboard: in normal mode, with the input empty, the key
    [s], the characters of an integer literal and Enter set the offset to
    the value of the literal and end in normal mode with the input empty. *)
Theorem seek_round_trip (st : AppState) (s : string) (v : Z) :
  mode st = NormalMode ->
  literal s v -> v <= maxInt64 ->
  exists st',
    Reduce RuneWidth st (actions_of (press 115 :: type_keys s ++ [enter])) = Next st' /\
    startByte st' = v /\ mode st' = NormalMode /\ userInput st' = "" /\
    highlightPos st' = highlightPos st /\ status st' = status st.
Proof.
  intros Hm Hl Hv.
  change (press 115 :: type_keys s ++ [enter])%list
    with ([press 115] ++ type_keys s ++ [enter])%list.
  rewrite !actions_of_app, !Reduce_app.
  assert (H1 : Reduce RuneWidth st (actions_of [press 115]) =
               Next (set_userInput "" (set_mode SeekInputMode
                                         (set_lastAction BinxKeyS st)))).
  { destruct st; simpl in Hm; subst. reflexivity. }
  rewrite H1, Reduce_app.
  match goal with
  | |- context [Reduce _ ?st1 (actions_of (type_keys s))] =>
    destruct (typing_in_SeekInput_aux s st1) as [st2 [H2 [Hu [Hm2 [Hs [Hh [Hst Hd]]]]]]];
      [reflexivity
      | intros c; apply (literal_ascii s v c Hl)
      | idtac]
  end.
  rewrite H2. change (actions_of [enter]) with [commit]. cbn [Reduce].
  rewrite (commit_in_SeekInput st2 commit eq_refl Hm2).
  eexists. split; [reflexivity|]. simpl.
  rewrite Hu, Hh, Hst. destruct st; simpl.
  rewrite (ParseInt_literal s v Hl Hv). repeat split.
Qed.

Lemma reduce_KeyDown (st : AppState) (a : Action) :
  name a = BinxKeyDown ->
  rootReducer RuneWidth st a =
    Next (set_startByte (wrap64 (startByte st + byteVisWidth st))
            (set_lastAction BinxKeyDown st)).
Proof. intros Hname. dispatch a Hname. reflexivity. Qed.

Lemma Reduce_KeyDown (n : nat) (st : AppState) (a : Action) :
  name a = BinxKeyDown ->
  0 <= byteVisWidth st ->
  minInt64 <= startByte st ->
  startByte st + Z.of_nat n * byteVisWidth st <= maxInt64 ->
  exists st', Reduce RuneWidth st (repeat a n) = Next st' /\
    startByte st' = startByte st + Z.of_nat n * byteVisWidth st /\
    byteVisWidth st' = byteVisWidth st /\ mode st' = mode st /\
    userInput st' = userInput st.
Proof.
  intros Hname. revert st. induction n as [|n IH]; intros st Hw Hs Hmax.
  - exists st. simpl. repeat split. lia.
  - rewrite Nat2Z.inj_succ, Z.mul_succ_l in *.
    assert (Hn : 0 <= Z.of_nat n * byteVisWidth st) by nia.
    simpl repeat. cbn [Reduce]. rewrite (reduce_KeyDown st a Hname).
    assert (Hstep : wrap64 (startByte st + byteVisWidth st)
                    = startByte st + byteVisWidth st).
    { apply wrap64_small. unfold in_int64, minInt64, maxInt64 in *. lia. }
    match goal with
    | |- context [Reduce _ ?st1 _] =>
      destruct (IH st1) as [st' [H [H1 [H2 [H3 H4]]]]];
        [ exact Hw
        | simpl; rewrite Hstep; unfold minInt64 in *; lia
        | simpl; rewrite Hstep; lia
        | idtac ]
    end.
    exists st'. split; [exact H|]. rewrite H1, H2, H3, H4. simpl.
    rewrite Hstep. repeat split. lia.
Qed.

Lemma Reduce_KeyUp (n : nat) (st : AppState) (a : Action) :
  name a = BinxKeyUp ->
  0 <= byteVisWidth st <= maxInt64 ->
  0 <= startByte st <= maxInt64 ->
  exists st', Reduce RuneWidth st (repeat a n) = Next st' /\
    startByte st' = Z.max 0 (startByte st - Z.of_nat n * byteVisWidth st) /\
    byteVisWidth st' = byteVisWidth st /\ mode st' = mode st /\
    userInput st' = userInput st.
Proof.
  intros Hname. revert st. induction n as [|n IH]; intros st Hw Hs.
  - exists st. simpl. repeat split. lia.
  - rewrite Nat2Z.inj_succ, Z.mul_succ_l.
    assert (Hn : 0 <= Z.of_nat n * byteVisWidth st) by nia.
    simpl repeat. cbn [Reduce]. rewrite (reduce_KeyUp RuneWidth st a Hname).
    cbv zeta.
    assert (Hstep : wrap64 (startByte st - byteVisWidth st)
                    = startByte st - byteVisWidth st).
    { apply wrap64_small. unfold in_int64, minInt64, maxInt64 in *. lia. }
    rewrite Hstep.
    match goal with
    | |- context [Reduce _ ?st1 _] =>
      destruct (IH st1) as [st' [H [H1 [H2 [H3 H4]]]]];
        [ exact Hw
        | simpl; destruct (Z.ltb_spec (startByte st - byteVisWidth st) 0); lia
        | idtac ]
    end.
    exists st'. split; [exact H|]. rewrite H1, H2, H3, H4. simpl.
    repeat split.
    destruct (Z.ltb_spec (startByte st - byteVisWidth st) 0); simpl; lia.
Qed.

(** Scrolling composes: [n] Down keys move the offset by [n] rows, and [n]
    Up keys after them bring it back, as long as the offset starts
    non-negative and does not overflow on the way down. *)
Theorem scroll_round_trip (n : nat) (st : AppState) (down up : Action) :
  name down = BinxKeyDown -> name up = BinxKeyUp ->
  0 <= byteVisWidth st <= maxInt64 ->
  0 <= startByte st ->
  startByte st + Z.of_nat n * byteVisWidth st <= maxInt64 ->
  exists st1 st2,
    Reduce RuneWidth st (repeat down n) = Next st1 /\
    startByte st1 = startByte st + Z.of_nat n * byteVisWidth st /\
    Reduce RuneWidth st1 (repeat up n) = Next st2 /\
    startByte st2 = startByte st.
Proof.
  intros Hd Hu Hw Hs Hmax.
  destruct (Reduce_KeyDown n st down Hd) as [st1 [H1 [Hs1 [Hw1 _]]]];
    [lia | unfold minInt64; lia | exact Hmax | idtac].
  destruct (Reduce_KeyUp n st1 up Hu) as [st2 [H2 [Hs2 _]]];
    [rewrite Hw1; exact Hw | rewrite Hs1; nia | idtac].
  exists st1, st2. repeat split; try assumption.
  rewrite Hs2, Hs1, Hw1. lia.
Qed.

(** The Up key stops at the top: [n] Up keys leave the offset at
    [max 0 (startByte - n * byteVisWidth)], so at 0 once [n] rows cover the
    offset, and at 0 it stays. *)
Theorem KeyUp_reaches_top (n : nat) (st : AppState) (up : Action) :
  name up = BinxKeyUp ->
  0 <= byteVisWidth st <= maxInt64 ->
  0 <= startByte st <= maxInt64 ->
  exists st', Reduce RuneWidth st (repeat up n) = Next st' /\
    startByte st' = Z.max 0 (startByte st - Z.of_nat n * byteVisWidth st) /\
    (startByte st <= Z.of_nat n * byteVisWidth st -> startByte st' = 0).
Proof.
  intros Hu Hw Hs.
  destruct (Reduce_KeyUp n st up Hu Hw Hs) as [st' [H [Hs' _]]].
  exists st'. repeat split; try assumption. intros Hle. lia.
Qed.

End Sessions.

(** ** A frame of the renderer *)






Section Frame.

Variable RuneWidth : rune -> Z.




(** When a frame panics: exactly when the offset is negative or the
    viewport ends past the capacity of the buffer (all sizes within
    [int64]). *)
Theorem render_panics_iff (st : AppState) :
  in_int64 (byteVisWidth st * byteVisHeight st) ->
  in_int64 (startByte st) ->
  in_int64 (startByte st + Z.max 0 (byteVisWidth st * byteVisHeight st)) ->
  (render RuneWidth st = Panic <->
   startByte st < 0 \/
   cap (dat st) < startByte st + Z.max 0 (byteVisWidth st * byteVisHeight st)).
Proof.
  intros Hn Hs Hhi.
  unfold render. cbv zeta. unfold wrapInt. fold wrap64.
  change (byteVisWidth (set_screen (call Show (screen st)) st))
    with (byteVisWidth st).
  change (byteVisHeight (set_screen (call Show (screen st)) st))
    with (byteVisHeight st).
  change (startByte (set_screen (call Show (screen st)) st)) with (startByte st).
  change (dat (set_screen (call Show (screen st)) st)) with (dat st).
  rewrite (wrap64_small _ Hn).
  set (n := byteVisWidth st * byteVisHeight st) in *.
  assert (En : (if n <? 0 then 0 else n) = Z.max 0 n)
    by (destruct (Z.ltb_spec n 0); lia).
  rewrite En, (wrap64_small _ Hhi).
  unfold slice.
  destruct (Z.leb_spec 0 (startByte st));
    [|simpl; split; [intros _; lia | reflexivity]].
  destruct (Z.leb_spec (startByte st) (startByte st + Z.max 0 n)); [|lia].
  destruct (Z.leb_spec (startByte st + Z.max 0 n) (cap (dat st)));
    [|simpl; split; [intros _; lia | reflexivity]].
  cbv [andb].
  match goal with
  | |- context [drawBytes ?w ?i ?bs ?s] =>
    assert (Hdraw : exists st1, drawBytes w i bs s = Some st1)
  end.
  { destruct (Z.eq_dec (byteVisWidth st) 0) as [E0 | Hne].
    - assert (n = 0) by (subst n; rewrite E0; lia).
      replace (startByte st + Z.max 0 n - startByte st) with 0 by lia.
      simpl. eexists. reflexivity.
    - now apply drawBytes_returns. }
  destruct Hdraw as [st1 ->].
  split; [discriminate | lia].
Qed.

End Frame.

(** ** Where a match can lie *)

Lemma DecodeString_length (p : string) (pat : list byte) :
  hex.DecodeString p = (pat, None) ->
  String.length p = (2 * List.length pat)%nat.
Proof.
  assert (H : forall n p pat, (String.length p <= n)%nat ->
            hex.DecodeString p = (pat, None) ->
            String.length p = (2 * List.length pat)%nat).
  { clear. induction n as [|n IH]; intros p pat Hn Hd.
    - destruct p; simpl in Hn; [|lia]. simpl in Hd. now injection Hd as <-.
    - destruct p as [|a [|b p]].
      + simpl in Hd. now injection Hd as <-.
      + simpl in Hd. destruct (hex.fromHexChar a); discriminate.
      + change (hex.DecodeString (String a (String b p))) with
          (match hex.fromHexChar a, hex.fromHexChar b with
           | None, _ => ([], Some (hex.InvalidByteError (byte_of_ascii a)))
           | Some _, None => ([], Some (hex.InvalidByteError (byte_of_ascii b)))
           | Some x, Some y =>
             let '(out, err) := hex.DecodeString p in
             (byte_of_Z (Z.lor (Z.shiftl x 4) y) :: out, err)
           end) in Hd.
        destruct (hex.fromHexChar a); [|discriminate].
        destruct (hex.fromHexChar b); [|discriminate].
        destruct (hex.DecodeString p) as [out err] eqn:Ed.
        injection Hd as <- ->.
        assert (Hp : (String.length p <= n)%nat) by (simpl in Hn; lia).
        specialize (IH p out Hp Ed). simpl. lia. }
  apply (H (String.length p)). lia.
Qed.

Lemma occurs_at_fits (pat buf : list byte) (i : nat) :
  occurs_at pat buf i -> (i + List.length pat <= List.length buf)%nat.
Proof.
  intros [Hi [post H]].
  assert (Hl : List.length (skipn i buf) = List.length (pat ++ post))
    by now rewrite H.
  rewrite length_skipn, length_app in Hl. lia.
Qed.

(** A search that ends without an error had a pattern of an even number
    of hexadecimal digits, two for each byte, and returns either -1 or an
    offset at which the whole pattern lies inside the buffer. *)
Theorem findBytePattern_range (p : string) (buf : list byte) (i : Z) :
  findBytePattern p buf = (i, None) ->
  exists pat, hex.DecodeString p = (pat, None) /\
    String.length p = (2 * List.length pat)%nat /\
    (i = -1 \/
     (0 <= i /\ i + Z.of_nat (List.length pat) <= Z.of_nat (List.length buf))).
Proof.
  unfold findBytePattern.
  destruct (hex.DecodeString p) as [pat [e|]] eqn:Hd; [discriminate|].
  intros H. injection H as <-. exists pat.
  split; [reflexivity|]. split; [exact (DecodeString_length _ _ Hd)|].
  unfold bytes.Index.
  destruct (index_from_spec pat buf 0) as [[k [-> [Hocc _]]] | [-> _]].
  - right. apply occurs_at_fits in Hocc. lia.
  - now left.
Qed.

(** ** The further properties at concrete inputs *)

Lemma findBytePattern_range_witness :
  exists pat, hex.DecodeString "09" = (pat, None) /\
              9 + Z.of_nat (List.length pat) <= Z.of_nat (List.length test_buf).
Proof.
  destruct (findBytePattern_range "09" test_buf 9 eq_refl)
    as [pat [Hd [_ [H | [_ H]]]]].
  - discriminate H.
  - exists pat. split; assumption.
Defined.

Lemma rootReducer_frame_witness :
  exists st', rootReducer narrow (session PatternInputMode "09") commit = Next st' /\
              dat st' = small_file /\ lastAction st' = BinxKeyEnter.
Proof.
  assert (H : exists st', rootReducer narrow (session PatternInputMode "09") commit
                          = Next st') by (eexists; vm_compute; reflexivity).
  destruct H as [st' H]. exists st'. split; [exact H|].
  destruct (rootReducer_frame narrow _ _ _ H) as [_ [Hd [_ [_ [_ [_ [_ [Hl _]]]]]]]].
  split; assumption.
Defined.

Lemma rootReducer_writes_witness :
  exists st', rootReducer narrow (session PatternInputMode "zz") commit = Next st' /\
              invalid_hex "zz".
Proof.
  assert (H : exists st', rootReducer narrow (session PatternInputMode "zz") commit
                          = Next st') by (eexists; vm_compute; reflexivity).
  destruct H as [st' H]. exists st'. split; [exact H|].
  destruct (rootReducer_writes narrow _ _ _ H) as [_ [_ [_ Hst]]].
  apply Hst. intros E.
  assert (Hs : status st' = "encoding/hex: invalid byte: U+007A 'z'").
  { assert (E' : Next st' = rootReducer narrow (session PatternInputMode "zz") commit)
      by (symmetry; exact H).
    vm_compute in E'. injection E' as ->. reflexivity. }
  rewrite Hs in E. discriminate E.
Defined.

Lemma rootReducer_mode_witness :
  exists st', rootReducer narrow (session SeekInputMode "12") commit = Next st' /\
              mode st' = NormalMode /\ userInput st' = "".
Proof.
  assert (H : exists st', rootReducer narrow (session SeekInputMode "12") commit
                          = Next st') by (eexists; vm_compute; reflexivity).
  destruct H as [st' H]. exists st'. split; [exact H|].
  destruct (rootReducer_mode narrow _ _ _ H)
    as [Hm | [Hu [[_ [Hm _]] | [[_ [Hm _]] | [[Hn _] | [_ [_ Hm]]]]]]];
    try discriminate.
  - exfalso.
    assert (E' : Next st' = rootReducer narrow (session SeekInputMode "12") commit)
      by (symmetry; exact H).
    vm_compute in E'. injection E' as ->. discriminate Hm.
  - split; assumption.
Defined.

Lemma Reduce_input_cleared_witness :
  exists st', Reduce narrow fresh_session (actions_of seek_minus_five) = Next st' /\
              input_cleared st'.
Proof.
  assert (H : exists st', Reduce narrow fresh_session (actions_of seek_minus_five)
                          = Next st') by (eexists; vm_compute; reflexivity).
  destruct H as [st' H]. exists st'. split; [exact H|].
  apply (Reduce_input_cleared narrow fresh_session st' _ (fun _ => eq_refl) H).
Defined.

Lemma rootReducer_offset_nonneg_witness :
  exists st', rootReducer narrow (session NormalMode "")
                {| name := BinxKeyDown; value := EventValue arrow_down |} = Next st' /\
              0 <= startByte st'.
Proof.
  assert (H : exists st', rootReducer narrow (session NormalMode "")
                {| name := BinxKeyDown; value := EventValue arrow_down |}
                          = Next st') by (eexists; vm_compute; reflexivity).
  destruct H as [st' H]. exists st'. split; [exact H|].
  apply (rootReducer_offset_nonneg narrow (session NormalMode "") st'
           {| name := BinxKeyDown; value := EventValue arrow_down |}).
  - simpl. lia.
  - simpl. lia.
  - simpl. unfold maxInt64. lia.
  - intros [E _]. discriminate E.
  - exact H.
Defined.


Lemma seek_round_trip_witness :
  exists st',
    Reduce narrow fresh_session (actions_of (press 115 :: type_keys "0x10" ++ [enter]))
      = Next st' /\
    startByte st' = 16 /\ mode st' = NormalMode /\ userInput st' = "".
Proof.
  destruct (seek_round_trip narrow fresh_session "0x10" 16 eq_refl)
    as [st' [H [Hs [Hm [Hu _]]]]].
  - apply (literal_hex "x" "10" 16); [reflexivity | discriminate | reflexivity].
  - unfold maxInt64. lia.
  - exists st'. repeat split; assumption.
Defined.

Lemma scroll_round_trip_witness :
  exists st1 st2,
    Reduce narrow fresh_session (actions_of [arrow_down; arrow_down]) = Next st1 /\
    startByte st1 = 160 /\
    Reduce narrow st1 (actions_of [arrow_up; arrow_up]) = Next st2 /\
    startByte st2 = 0.
Proof.
  destruct (scroll_round_trip narrow 2 fresh_session
              {| name := BinxKeyDown; value := EventValue arrow_down |}
              {| name := BinxKeyUp; value := EventValue arrow_up |}
              eq_refl eq_refl) as [st1 [st2 [H1 [Hs1 [H2 Hs2]]]]].
  - simpl. unfold maxInt64. lia.
  - simpl. lia.
  - simpl. unfold maxInt64. lia.
  - exists st1, st2. repeat split; assumption.
Defined.

Lemma KeyUp_reaches_top_witness :
  exists st', Reduce narrow (session NormalMode "")
                (actions_of [arrow_up; arrow_up; arrow_up]) = Next st' /\
              startByte st' = 0.
Proof.
  destruct (KeyUp_reaches_top narrow 3 (session NormalMode "")
              {| name := BinxKeyUp; value := EventValue arrow_up |} eq_refl)
    as [st' [H [_ Htop]]].
  - simpl. unfold maxInt64. lia.
  - simpl. unfold maxInt64. lia.
  - exists st'. split; [exact H|]. apply Htop. simpl. lia.
Defined.


Lemma render_panics_iff_witness :
  render narrow fresh_session = Panic /\
  cap (dat fresh_session) < startByte fresh_session + 80 * 23.
Proof.
  assert (Hcap : cap (dat fresh_session) < startByte fresh_session + 80 * 23)
    by (vm_compute; reflexivity).
  split; [|exact Hcap].
  apply (render_panics_iff narrow fresh_session).
  - vm_compute. split; discriminate.
  - vm_compute. split; discriminate.
  - vm_compute. split; discriminate.
  - right. exact Hcap.
Defined.

Lemma emitStr_ascii_witness :
  calls (emitStr narrow terminal 0 10 StyleDefault "16") =
    [SetContent 0 10 49 [] StyleDefault; SetContent 1 10 54 [] StyleDefault].
Proof.
  rewrite (emitStr_ascii narrow terminal 0 10 StyleDefault "16").
  - reflexivity.
  - intros c [<- | [<- | []]]; split; reflexivity.
  - unfold minInt64. lia.
  - simpl. unfold maxInt64. lia.
Defined.
